(** * aquefir/bigint: the signed big integer of [src/bigint.c]

    A shallow embedding of the signed half of the library: the lifecycle
    functions ([bigint_s_init], [bigint_s_dup], [bigint_s_make64] ...
    [bigint_s_make8], [bigint_s_fini], [bigint_s_zero]) and the three
    comparisons ([bigint_s_cmp_gt], [bigint_s_cmp_ge], [bigint_s_cmp_eq]).

    A [struct bigint_s] is a pointer and a 16-bit size.  The structs travel
    by value but the octets they point to are shared with the caller, so the
    octets live in an explicit heap and every function is a computation over
    that heap.  An access outside a block is undefined behaviour in C; here
    it stops the computation with a [fault].  Loops carry a fuel argument:
    the C loops are written with 16-bit counters and some of them have a
    guard that cannot fail. *)

From Stdlib Require Import ZArith Lia List Bool.
From stdpp Require Import gmap list.

Local Open Scope Z_scope.

(** ** Machine integers *)

(** [u16] and [u8] of [uni/types/int.h]: unsigned, 16 and 8 bits wide.  A
    value is a [Z]; a store into a variable of the type reduces it. *)
Definition wrap16 (x : Z) : Z := x mod 65536.
Definition wrap8 (x : Z) : Z := x mod 256.

Definition is_u16 (x : Z) : bool := (0 <=? x) && (x <? 65536).
Definition is_octet (x : Z) : bool := (0 <=? x) && (x <? 256).

(** ** Data *)

(** [enum bigint_cmp_retval] of [include/bigint.h]. *)
Inductive bigint_cmp_retval : Set :=
  | BIGINT_FALSE
  | BIGINT_TRUE
  | BIGINT_UNDEFINED.

(** A [u8 *]: the null pointer or the address of a block of octets. *)
Inductive ptr : Set :=
  | NULL
  | Ptr (l : nat).

(** [struct bigint_s]: octet 0 of the block is the least significant one. *)
Record bigint_s : Set := mk_bigint_s { data : ptr; sz : Z }.

(** The heap: the live blocks, each a list of octets. *)
Abbreviation heap := (gmap nat (list Z)).

(** ** Computations over the heap *)

Inductive fault : Set :=
  | NullDeref
  | Dangling (l : nat)
  | OutOfBounds (l : nat) (i : Z).

Inductive outcome (A : Type) : Type :=
  | Done (a : A) (h : heap)
  | Trap (e : fault)
  | Timeout.
Arguments Done {A} a h.
Arguments Trap {A} e.
Arguments Timeout {A}.

Definition M (A : Type) : Type := heap -> outcome A.

Definition ret {A} (a : A) : M A := fun h => Done a h.

Definition bind {A B} (c : M A) (k : A -> M B) : M B :=
  fun h =>
    match c h with
    | Done a h' => k a h'
    | Trap e => Trap e
    | Timeout => Timeout
    end.

Definition out_of_fuel {A} : M A := fun _ => Timeout.

Notation "'do' x <- c ; k" := (bind c (fun x => k))
  (at level 10, x name, c at level 100, k at level 200).
Notation "c ;; k" := (bind c (fun _ => k))
  (at level 100, k at level 200, right associativity).

(** [p[i]] as an rvalue. *)
Definition load (p : ptr) (i : Z) : M Z :=
  fun h =>
    match p with
    | NULL => Trap NullDeref
    | Ptr l =>
        match h !! l with
        | None => Trap (Dangling l)
        | Some buf =>
            if i <? 0 then Trap (OutOfBounds l i)
            else match buf !! Z.to_nat i with
                 | Some x => Done x h
                 | None => Trap (OutOfBounds l i)
                 end
        end
    end.

(** [p[i] = x]: the octet is replaced in the block [p] points to, which is
    the caller's block whenever the caller holds the same pointer. *)
Definition store (p : ptr) (i : Z) (x : Z) : M unit :=
  fun h =>
    match p with
    | NULL => Trap NullDeref
    | Ptr l =>
        match h !! l with
        | None => Trap (Dangling l)
        | Some buf =>
            if (0 <=? i) && (i <? Z.of_nat (length buf))
            then Done tt (<[l := <[Z.to_nat i := wrap8 x]> buf]> h)
            else Trap (OutOfBounds l i)
        end
    end.

(** ** The memory primitives of [uni/memory.h] *)

(** Modelled from the spec: [uni_alloc0], the zero-filling allocator of the
    external uni library (section 6: allocate(n) returns n octets or fails
    fatally).  The block is new: its address is not the address of a live
    block. *)
Definition uni_alloc0 (n : Z) : M ptr :=
  fun h =>
    let l := fresh (dom h) in
    Done (Ptr l) (<[l := replicate (Z.to_nat n) 0]> h).

(** Modelled from the spec: [uni_alloc], the plain allocator of the uni
    library.  The octets of the new block are not initialised; [junk] gives
    the value found at each index. *)
Definition uni_alloc (junk : nat -> Z) (n : Z) : M ptr :=
  fun h =>
    let l := fresh (dom h) in
    Done (Ptr l) (<[l := junk <$> seq 0 (Z.to_nat n)]> h).

(** Modelled from the spec: [uni_free] of the uni library releases a block
    exactly once. *)
Definition uni_free (p : ptr) : M unit :=
  fun h =>
    match p with
    | NULL => Done tt h
    | Ptr l =>
        match h !! l with
        | None => Trap (Dangling l)
        | Some _ => Done tt (delete l h)
        end
    end.

(** Modelled from the spec: [uni_memcpy] of the uni library, for a source
    that is an object outside the heap (a local variable), given by its
    octets: [src[0]] ... [src[n-1]] are stored at [dst[0]] ... [dst[n-1]]. *)
Fixpoint store_from (dst : ptr) (i : Z) (src : list Z) : M unit :=
  match src with
  | [] => ret tt
  | x :: src' => store dst i x ;; store_from dst (i + 1) src'
  end.

Definition uni_memcpy (dst : ptr) (src : list Z) (n : Z) : M unit :=
  store_from dst 0 (take (Z.to_nat n) src).

(** Modelled from the spec: [uni_memset] of the uni library on a block of the
    heap: [n] octets of value [c] from [dst[0]] on. *)
Definition uni_memset (dst : ptr) (c : Z) (n : Z) : M unit :=
  store_from dst 0 (replicate (Z.to_nat n) c).

(** ** Lifecycle *)

(** [bigint_s_init], bigint.c lines 12-25.  [uni_memset(&ret, 0, sizeof ret)]
    clears the local struct: a null pointer and size 0. *)
Definition bigint_s_init (sz0 : Z) : M bigint_s :=
  let ret0 := {| data := NULL; sz := 0 |} in
  if 0 <? sz0
  then do p <- uni_alloc0 sz0 ; ret {| data := p; sz := sz0 |}
  else ret ret0.

(** The object representation of a [w]-octet primitive: two's complement,
    least significant octet first (the layout the header and the spec fix
    for the buffer). *)
Definition octets_of (w : Z) (n : Z) : list Z :=
  (fun i => Z.land (Z.shiftr n (8 * Z.of_nat i)) 255) <$> seq 0 (Z.to_nat w).

(** The common body of [bigint_s_make64], [bigint_s_make32],
    [bigint_s_make16] and [bigint_s_make8] (lines 52-94), which differ in
    [sizeof n] only. *)
Definition make_sized (w : Z) (n : Z) : M bigint_s :=
  do r <- bigint_s_init w ;
  uni_memcpy (data r) (octets_of w n) w ;;
  ret {| data := data r; sz := w |}.

Definition bigint_s_make64 (n : Z) : M bigint_s := make_sized 8 n.
Definition bigint_s_make32 (n : Z) : M bigint_s := make_sized 4 n.
Definition bigint_s_make16 (n : Z) : M bigint_s := make_sized 2 n.
Definition bigint_s_make8 (n : Z) : M bigint_s := make_sized 1 n.

(** [bigint_s_dup], lines 27-50.  The loop of lines 34-37: [i] and [new_sz]
    are [u16], so [--i] and [-=] wrap, and the guard [i >= 0] compares an
    unsigned value with 0. *)
Fixpoint dup_loop (fuel : nat) (d : ptr) (i new_sz : Z) : M Z :=
  match fuel with
  | O => out_of_fuel
  | S fuel' =>
      if 0 <=? i
      then do x <- load d i ;
           dup_loop fuel' d (wrap16 (i - 1))
                    (wrap16 (new_sz - (if x =? 0 then 1 else 0)))
      else ret new_sz
  end.

Definition bigint_s_dup (junk : nat -> Z) (fuel : nat) (in_ : bigint_s)
  : M bigint_s :=
  let ret0 := in_ in
  do new_sz <- dup_loop fuel (data ret0) (wrap16 (sz ret0 - 1)) (sz ret0) ;
  if negb (new_sz =? sz ret0)
  then do new_data <- uni_alloc junk new_sz ;
       uni_free (data ret0) ;;
       ret {| data := new_data; sz := new_sz |}
  else ret ret0.

(** [bigint_s_fini], lines 96-102. *)
Definition bigint_s_fini (in_ : bigint_s) : M unit :=
  match data in_ with
  | NULL => ret tt
  | Ptr l => uni_free (Ptr l)
  end.

(** [bigint_s_zero], lines 104-112. *)
Definition bigint_s_zero (in_ : bigint_s) : M bigint_s :=
  if 0 <? sz in_
  then uni_memset (data in_) 0 (sz in_) ;; ret in_
  else ret in_.

(** ** Comparison *)

(** [isnegative], lines 114-117.  The index [in->sz - 1] is computed in
    [int]. *)
Definition isnegative (in_ : bigint_s) : M Z :=
  do x <- load (data in_) (sz in_ - 1) ;
  ret (Z.shiftr x 7).

(** The value of [a_big ? a_neg ? F : T : a_neg ? T : F], lines 159-161. *)
Definition high_verdict (a_big : bool) (a_neg : Z) : bigint_cmp_retval :=
  if a_big
  then (if a_neg =? 0 then BIGINT_TRUE else BIGINT_FALSE)
  else (if a_neg =? 0 then BIGINT_FALSE else BIGINT_TRUE).

(** The loop of lines 155-163 over the octets of the longer operand above
    the shorter one's length.  [Some r] is a [return r] from inside the
    loop, [None] is the loop left through its guard. *)
Fixpoint cmp_high_loop (fuel : nat) (big : bigint_s) (sml_sz : Z)
  (a_big : bool) (a_neg : Z) (i : Z) : M (option bigint_cmp_retval) :=
  match fuel with
  | O => out_of_fuel
  | S fuel' =>
      if sml_sz <=? i
      then do x <- load (data big) i ;
           if negb (x =? 0)
           then ret (Some (high_verdict a_big a_neg))
           else cmp_high_loop fuel' big sml_sz a_big a_neg (wrap16 (i - 1))
      else ret None
  end.

(** The loop of lines 173-183: it starts at [i = sml_sz]; [i] is a [u16]
    and the guard is [i >= 0].  Each of the two comparisons reads both
    octets, [a]'s first here (C leaves the order open). *)
Fixpoint cmp_scan_loop (fuel : nat) (a b : bigint_s) (a_neg : Z) (i : Z)
  : M (option bigint_cmp_retval) :=
  match fuel with
  | O => out_of_fuel
  | S fuel' =>
      if 0 <=? i
      then do x <- load (data a) i ;
           do y <- load (data b) i ;
           if y <? x
           then ret (Some (if a_neg =? 0 then BIGINT_TRUE else BIGINT_FALSE))
           else do x' <- load (data a) i ;
                do y' <- load (data b) i ;
                if x' <? y'
                then ret (Some (if a_neg =? 0 then BIGINT_FALSE
                                else BIGINT_TRUE))
                else cmp_scan_loop fuel' a b a_neg (wrap16 (i - 1))
      else ret None
  end.

(** [bigint_s_cmp_impl], lines 119-188.  The two structs are the callee's
    own copies; the octets behind [data] are not. *)
Definition bigint_s_cmp_impl (fuel : nat) (a b : bigint_s) (orequ : Z)
  : M bigint_cmp_retval :=
  if (sz a =? 0) || (sz b =? 0) then ret BIGINT_UNDEFINED
  else
    do a_neg <- isnegative a ;
    do b_neg <- isnegative b ;
    if negb (a_neg =? b_neg)
    then ret (if b_neg =? 0 then BIGINT_FALSE else BIGINT_TRUE)
    else
      do x <- load (data a) (sz a - 1) ;
      store (data a) (sz a - 1) (Z.land x 0x7F) ;;
      do y <- load (data b) (sz b - 1) ;
      store (data b) (sz b - 1) (Z.land y 0x7F) ;;
      do early <-
        (if negb (sz a =? sz b)
         then
           let a_big := sz b <? sz a in
           let big := if a_big then a else b in
           let sml_sz := if sz a <? sz b then sz a else sz b in
           cmp_high_loop fuel big sml_sz a_big a_neg (wrap16 (sz big - 1))
         else ret None) ;
      match early with
      | Some r => ret r
      | None =>
          let sml_sz := if sz a <? sz b then sz a else sz b in
          do found <- cmp_scan_loop fuel a b a_neg sml_sz ;
          match found with
          | Some r => ret r
          | None => ret (if orequ =? 0 then BIGINT_FALSE else BIGINT_TRUE)
          end
      end.

(** [bigint_s_cmp_gt] and [bigint_s_cmp_ge], lines 190-198. *)
Definition bigint_s_cmp_gt (fuel : nat) (a b : bigint_s)
  : M bigint_cmp_retval :=
  bigint_s_cmp_impl fuel a b 0.

Definition bigint_s_cmp_ge (fuel : nat) (a b : bigint_s)
  : M bigint_cmp_retval :=
  bigint_s_cmp_impl fuel a b 1.

(** The loop of lines 219-225, from the least significant octet up. *)
Fixpoint cmp_eq_loop (fuel : nat) (a b : bigint_s) (sz0 : Z) (i : Z)
  : M (option bigint_cmp_retval) :=
  match fuel with
  | O => out_of_fuel
  | S fuel' =>
      if i <? sz0
      then do x <- load (data a) i ;
           do y <- load (data b) i ;
           if negb (x =? y)
           then ret (Some BIGINT_FALSE)
           else cmp_eq_loop fuel' a b sz0 (wrap16 (i + 1))
      else ret None
  end.

(** [bigint_s_cmp_eq], lines 200-229. *)
Definition bigint_s_cmp_eq (fuel : nat) (a b : bigint_s)
  : M bigint_cmp_retval :=
  if (sz a =? 0) || (sz b =? 0) then ret BIGINT_UNDEFINED
  else if negb (sz a =? sz b) then ret BIGINT_FALSE
  else
    do found <- cmp_eq_loop fuel a b (sz a) 0 ;
    match found with
    | Some r => ret r
    | None => ret BIGINT_TRUE
    end.

(** ** Values a caller can hold *)

(** The octets a caller sees behind a value: the block [data] points to. *)
Definition octets (h : heap) (v : bigint_s) : list Z :=
  match data v with
  | NULL => []
  | Ptr l => default [] (h !! l)
  end.

(** A value as the constructors build it: a null pointer with size 0, or a
    live block of exactly [sz] octets. *)
Definition wf (h : heap) (v : bigint_s) : bool :=
  is_u16 (sz v) &&
  match data v with
  | NULL => sz v =? 0
  | Ptr l =>
      match h !! l with
      | Some buf => (Z.of_nat (length buf) =? sz v) && forallb is_octet buf
      | None => false
      end
  end.

(** The sign of a non-empty value: bit 7 of its last octet. *)
Definition negative (h : heap) (v : bigint_s) : bool :=
  negb (Z.shiftr (default 0 (octets h v !! Z.to_nat (sz v - 1))) 7 =? 0).

(** The top octet of a block with bit 7 cleared: what lines 142 and 143
    leave in the block. *)
Definition clear_sign (buf : list Z) : list Z :=
  let k := Nat.pred (length buf) in
  <[k := Z.land (default 0 (buf !! k)) 0x7F]> buf.

(** The heap with the top octet of [v]'s block masked. *)
Definition mask_sign (h : heap) (v : bigint_s) : heap :=
  match data v with
  | NULL => h
  | Ptr l => <[l := clear_sign (octets h v)]> h
  end.

Definition nonzero (x : Z) : bool := negb (x =? 0).

(** The address [data v] holds, for the faults below. *)
Definition block_of (v : bigint_s) : nat :=
  match data v with
  | NULL => 0%nat
  | Ptr l => l
  end.

(** [bigint_s_cmp_impl] on two values of the heap in closed form
    ([bigint_s_cmp_impl_outcome] below proves it): the result is decided by
    the signs, or by a non-zero octet of the longer operand above the
    length of the shorter one; in every other case the scan of lines
    173-183 starts one octet past the end of the shorter operand. *)
Definition cmp_impl_outcome (a b : bigint_s) (h : heap)
  : outcome bigint_cmp_retval :=
  if (sz a =? 0) || (sz b =? 0) then Done BIGINT_UNDEFINED h
  else if negb (eqb (negative h a) (negative h b))
  then Done (if negative h b then BIGINT_TRUE else BIGINT_FALSE) h
  else
    let h2 := mask_sign (mask_sign h a) b in
    let sml_sz := Z.min (sz a) (sz b) in
    let a_big := sz b <? sz a in
    let big := if a_big then a else b in
    if negb (sz a =? sz b) &&
       existsb nonzero (drop (Z.to_nat sml_sz) (octets h2 big))
    then Done (high_verdict a_big (if negative h a then 1 else 0)) h2
    else Trap (OutOfBounds (block_of (if a_big then b else a)) sml_sz).

(** The comparison is over before the scan of lines 173-183: an operand is
    empty, the signs differ, or the longer operand has a non-zero octet
    above the length of the shorter one once the sign bits are cleared. *)
Definition decided_early (a b : bigint_s) (h : heap) : bool :=
  (sz a =? 0) || (sz b =? 0) ||
  negb (eqb (negative h a) (negative h b)) ||
  (negb (sz a =? sz b) &&
   existsb nonzero
     (drop (Z.to_nat (Z.min (sz a) (sz b)))
           (octets (mask_sign (mask_sign h a) b)
                   (if sz b <? sz a then a else b)))).

(** The first access of the scan that falls outside a block: index
    [min (sz a) (sz b)] of the shorter operand ([a] when the sizes are
    equal). *)
Definition scan_fault (a b : bigint_s) : fault :=
  OutOfBounds (block_of (if sz b <? sz a then b else a))
              (Z.min (sz a) (sz b)).

(** The other answer of a comparison that has one. *)
Definition opposite (r : bigint_cmp_retval) : bigint_cmp_retval :=
  match r with
  | BIGINT_FALSE => BIGINT_TRUE
  | BIGINT_TRUE => BIGINT_FALSE
  | BIGINT_UNDEFINED => BIGINT_UNDEFINED
  end.

(** Whether a computation came back with a value. *)
Definition returned {A} (o : outcome A) : bool :=
  match o with
  | Done _ _ => true
  | _ => false
  end.

Definition returned_undefined (o : outcome bigint_cmp_retval) : bool :=
  match o with
  | Done BIGINT_UNDEFINED _ => true
  | _ => false
  end.

(** The four primitive types of the constructors and their [sizeof]. *)
Inductive prim : Set := s8 | s16 | s32 | s64.

Definition sizeof (t : prim) : Z :=
  match t with s8 => 1 | s16 => 2 | s32 => 4 | s64 => 8 end.

Definition in_prim (t : prim) (n : Z) : bool :=
  (- 2 ^ (8 * sizeof t - 1) <=? n) && (n <? 2 ^ (8 * sizeof t - 1)).

Definition bigint_s_make (t : prim) : Z -> M bigint_s :=
  match t with
  | s8 => bigint_s_make8
  | s16 => bigint_s_make16
  | s32 => bigint_s_make32
  | s64 => bigint_s_make64
  end.

(** Octet [i] of the little-endian representation of the [w]-octet
    primitive [n], in the words of the specification: the [i]-th base-256
    digit of [n] reduced modulo [2^(8w)]. *)
Definition le_octet (w : Z) (n : Z) (i : nat) : Z :=
  ((n mod 2 ^ (8 * w)) / 2 ^ (8 * Z.of_nat i)) mod 256.

(** A caller that builds two operands and applies an operation to them. *)
Definition with_operands {A} (mk1 mk2 : M bigint_s)
  (f : bigint_s -> bigint_s -> M A) : M (A * bigint_s * bigint_s) :=
  do a <- mk1 ;
  do b <- mk2 ;
  do r <- f a b ;
  ret (r, a, b).

(** * Properties *)

(** Conjunctions of integer tests. *)
Ltac tests_hold :=
  repeat (apply andb_true_iff; split);
  first [ reflexivity
        | apply Z.leb_le; lia
        | apply Z.ltb_lt; lia
        | apply Z.eqb_eq; lia ].

(** Closed powers of two, computed. *)
Ltac eval_pows :=
  repeat match goal with
         | |- context [Z.pow 2 ?e] =>
             let v := eval vm_compute in (Z.pow 2 e) in
             change (Z.pow 2 e) with v
         | H : context [Z.pow 2 ?e] |- _ =>
             let v := eval vm_compute in (Z.pow 2 e) in
             change (Z.pow 2 e) with v in H
         end.

(** ** Heap accesses *)

Lemma load_live l buf i x (h : heap) :
  h !! l = Some buf -> 0 <= i -> buf !! Z.to_nat i = Some x ->
  load (Ptr l) i h = Done x h.
Proof.
  intros Hl Hi Hx. unfold load. rewrite Hl.
  destruct (i <? 0) eqn:E; [lia|]. now rewrite Hx.
Qed.

Lemma load_past_end l buf i (h : heap) :
  h !! l = Some buf -> Z.of_nat (length buf) <= i ->
  load (Ptr l) i h = Trap (OutOfBounds l i).
Proof.
  intros Hl Hi. unfold load. rewrite Hl.
  destruct (i <? 0); [reflexivity|].
  rewrite (proj2 (lookup_ge_None buf (Z.to_nat i))); [reflexivity|lia].
Qed.

Lemma load_inv p i (h h' : heap) x :
  load p i h = Done x h' ->
  h' = h /\
  exists (l : nat) (buf : list Z),
    p = Ptr l /\ h !! l = Some buf /\ 0 <= i /\ buf !! Z.to_nat i = Some x.
Proof.
  unfold load. destruct p as [|l]; [discriminate|].
  destruct (h !! l) as [buf|] eqn:Hl; [|discriminate].
  destruct (i <? 0) eqn:E; [discriminate|].
  destruct (buf !! Z.to_nat i) as [y|] eqn:Hy; [|discriminate].
  intros [= -> ->]. split; [reflexivity|].
  exists l, buf. repeat split; auto. lia.
Qed.

Lemma store_live l buf i x (h : heap) :
  h !! l = Some buf -> 0 <= i < Z.of_nat (length buf) ->
  store (Ptr l) i x h = Done tt (<[l := <[Z.to_nat i := wrap8 x]> buf]> h).
Proof.
  intros Hl Hi. unfold store. rewrite Hl.
  destruct (0 <=? i) eqn:E1; [|lia].
  destruct (i <? Z.of_nat (length buf)) eqn:E2; [reflexivity|lia].
Qed.

Lemma bind_Done {A B} (c : M A) (k : A -> M B) (h h' : heap) b :
  bind c k h = Done b h' ->
  exists a h1, c h = Done a h1 /\ k a h1 = Done b h'.
Proof.
  unfold bind. destruct (c h) as [a h1| |]; try discriminate. eauto.
Qed.

(** Two continuations that agree on what the first computation returns. *)
Lemma bind_ext {A B} (c : M A) (k1 k2 : A -> M B) (h : heap) :
  (forall a h', c h = Done a h' -> k1 a h' = k2 a h') ->
  bind c k1 h = bind c k2 h.
Proof. intros H. unfold bind. destruct (c h); auto. Qed.

Lemma wrap8_octet x : is_octet x = true -> wrap8 x = x.
Proof.
  unfold is_octet, wrap8. intros H. apply andb_true_iff in H as [H1 H2].
  apply Z.mod_small. lia.
Qed.

Lemma wrap16_u16 x : 0 <= x < 65536 -> wrap16 x = x.
Proof. intros H. unfold wrap16. now apply Z.mod_small. Qed.

Lemma wrap16_range x : 0 <= wrap16 x < 65536.
Proof. unfold wrap16. apply Z.mod_pos_bound. lia. Qed.

(** What [wf] gives for a non-empty value. *)
Lemma wf_block h v :
  wf h v = true -> sz v <> 0 ->
  exists (l : nat) (buf : list Z),
    data v = Ptr l /\ h !! l = Some buf /\
    Z.of_nat (length buf) = sz v /\ 0 < sz v < 65536 /\
    octets h v = buf /\ forallb is_octet buf = true.
Proof.
  unfold wf, is_u16, octets. intros H Hne.
  apply andb_true_iff in H as [Hu H]. apply andb_true_iff in Hu as [H0 H1].
  destruct (data v) as [|l]; [lia|].
  destruct (h !! l) as [buf|] eqn:Hl; [|discriminate].
  apply andb_true_iff in H as [Hlen Hoct].
  exists l, buf. repeat split; auto; lia.
Qed.

Lemma wf_length h v : wf h v = true -> Z.of_nat (length (octets h v)) = sz v.
Proof.
  intros H. destruct (Z.eq_dec (sz v) 0) as [E|E].
  - unfold wf, octets in *. apply andb_true_iff in H as [_ H].
    destruct (data v) as [|l]; [simpl; lia|].
    destruct (h !! l) as [buf|]; [|discriminate].
    apply andb_true_iff in H as [H _]. simpl. lia.
  - destruct (wf_block h v H E) as (l & buf & _ & _ & Hlen & _ & -> & _).
    exact Hlen.
Qed.

(** ** Construction *)

Lemma fresh_block_free (h : heap) : h !! fresh (dom h) = None.
Proof. apply not_elem_of_dom, is_fresh. Qed.

(** Copying [src] over a live block from index [i] on replaces exactly the
    octets [i] ... [i + length src - 1]. *)
Lemma store_from_live l src : forall (i : nat) (buf : list Z) (h : heap),
  h !! l = Some buf -> (i + length src <= length buf)%nat ->
  store_from (Ptr l) (Z.of_nat i) src h =
  Done tt (<[l := take i buf ++ (wrap8 <$> src) ++ drop (i + length src) buf]> h).
Proof.
  induction src as [|x src IH]; intros i buf h Hl Hlen; simpl.
  - unfold ret. f_equal. rewrite Nat.add_0_r, take_drop.
    symmetry. now apply insert_id.
  - simpl in Hlen. unfold bind.
    rewrite (store_live l buf) by (auto; lia).
    replace (Z.of_nat i + 1) with (Z.of_nat (S i)) by lia.
    rewrite (IH (S i) (<[Z.to_nat (Z.of_nat i) := wrap8 x]> buf)).
    + rewrite insert_insert_eq, Nat2Z.id. f_equal. f_equal.
      rewrite (take_S_r _ _ (wrap8 x)).
      * rewrite take_insert_ge by lia. rewrite <- app_assoc. simpl.
        rewrite drop_insert_lt by lia.
        now replace (S (i + length src)) with (i + S (length src))%nat by lia.
      * apply list_lookup_insert_eq. lia.
    + apply lookup_insert_eq.
    + rewrite length_insert. lia.
Qed.

Lemma octets_of_length w n : length (octets_of w n) = Z.to_nat w.
Proof. unfold octets_of. now rewrite length_fmap, length_seq. Qed.

(** The [i]-th octet of the object representation is the [i]-th
    little-endian octet of the specification. *)
Lemma object_octet_le w n (i : nat) :
  Z.of_nat i < w ->
  Z.land (Z.shiftr n (8 * Z.of_nat i)) 255 = le_octet w n i.
Proof.
  intros Hi. unfold le_octet.
  change 255 with (Z.ones 8). rewrite Z.land_ones by lia.
  rewrite Z.shiftr_div_pow2 by lia.
  change 256 with (2 ^ 8).
  apply Z.bits_inj'. intros k Hk.
  rewrite !Z.testbit_mod_pow2 by lia.
  destruct (k <? 8) eqn:E; [|reflexivity]. simpl.
  rewrite !Z.div_pow2_bits by lia.
  rewrite Z.testbit_mod_pow2 by lia.
  destruct (k + 8 * Z.of_nat i <? 8 * w) eqn:E2; [reflexivity|lia].
Qed.

Lemma le_octet_range w n i : 0 <= le_octet w n i < 256.
Proof. unfold le_octet. apply Z.mod_pos_bound. lia. Qed.

Lemma octets_of_le w n :
  wrap8 <$> octets_of w n = le_octet w n <$> seq 0 (Z.to_nat w).
Proof.
  unfold octets_of. rewrite <- list_fmap_compose. apply list_fmap_ext.
  intros k i Hi. apply lookup_seq in Hi as [-> Hi]. simpl.
  rewrite (object_octet_le w) by lia.
  unfold wrap8. apply Z.mod_small, le_octet_range.
Qed.

Lemma bigint_s_init_alloc n (h : heap) :
  0 < n ->
  bigint_s_init n h =
  Done {| data := Ptr (fresh (dom h)); sz := n |}
       (<[fresh (dom h) := replicate (Z.to_nat n) 0]> h).
Proof.
  intros Hn. unfold bigint_s_init.
  destruct (0 <? n) eqn:E; [reflexivity|lia].
Qed.

Lemma make_sized_alloc w n (h : heap) :
  0 < w ->
  make_sized w n h =
  Done {| data := Ptr (fresh (dom h)); sz := w |}
       (<[fresh (dom h) := le_octet w n <$> seq 0 (Z.to_nat w)]> h).
Proof.
  intros Hw. unfold make_sized, bind. rewrite bigint_s_init_alloc by lia.
  simpl. unfold uni_memcpy.
  rewrite (firstn_all2 (octets_of w n)) by (rewrite octets_of_length; lia).
  change 0 with (Z.of_nat 0).
  rewrite (store_from_live _ _ 0 (replicate (Z.to_nat w) 0)).
  - rewrite insert_insert_eq. simpl.
    rewrite drop_ge by (rewrite length_replicate, octets_of_length; lia).
    now rewrite app_nil_r, octets_of_le.
  - apply lookup_insert_eq.
  - rewrite length_replicate, octets_of_length. simpl. lia.
Qed.

Lemma bigint_s_make_sized t n : bigint_s_make t n = make_sized (sizeof t) n.
Proof. now destruct t. Qed.

Lemma sizeof_pos t : 0 < sizeof t < 65536.
Proof. destruct t; simpl; lia. Qed.

Lemma forallb_octet_replicate k : forallb is_octet (replicate k 0) = true.
Proof. induction k as [|k IH]; simpl; auto. Qed.

Lemma forallb_le_octets w n l :
  forallb is_octet (le_octet w n <$> l) = true.
Proof.
  induction l as [|i l IH]; [reflexivity|].
  rewrite fmap_cons. cbn [forallb]. rewrite IH, andb_true_r. unfold is_octet.
  pose proof (le_octet_range w n i). apply andb_true_iff. split; lia.
Qed.

(** C8: for every 16-bit width [n], [bigint_s_init n] returns a value of
    size [n] whose block holds [n] octets, all of them zero, and leaves the
    blocks of the heap as they were; for [n = 0] the value is empty: size 0
    and the null pointer, with nothing allocated. *)
Theorem bigint_s_init_zero_filled (n : Z) (h : heap) :
  0 <= n < 65536 ->
  exists v h',
    bigint_s_init n h = Done v h' /\
    sz v = n /\
    octets h' v = replicate (Z.to_nat n) 0 /\
    wf h' v = true /\
    h ⊆ h' /\
    (n = 0 -> data v = NULL /\ h' = h).
Proof.
  intros Hn. destruct (Z.eq_dec n 0) as [->|Hne].
  - exists {| data := NULL; sz := 0 |}, h. repeat split; reflexivity.
  - rewrite bigint_s_init_alloc by lia.
    eexists _, _. split; [reflexivity|].
    unfold octets, wf, is_u16. simpl. rewrite lookup_insert_eq. simpl.
    repeat split.
    + rewrite length_replicate, forallb_octet_replicate.
      tests_hold.
    + apply insert_subseteq, fresh_block_free.
    + contradiction.
    + contradiction.
Qed.

Lemma bigint_s_init_zero_filled_witness :
  0 <= 3 < 65536 /\
  exists v h',
    bigint_s_init 3 ∅ = Done v h' /\
    sz v = 3 /\
    octets h' v = replicate (Z.to_nat 3) 0 /\
    wf h' v = true /\
    ∅ ⊆ h' /\
    (3 = 0 -> data v = NULL /\ h' = ∅).
Proof. split; [lia | apply (bigint_s_init_zero_filled 3 ∅); lia]. Defined.

(** C7: for every primitive [n] of type [s8], [s16], [s32] or [s64], the
    constructor of that type returns a value whose size is [sizeof n] and
    whose block holds exactly [sizeof n] octets, octet [i] being octet [i]
    of the little-endian representation of [n]. *)
Theorem bigint_s_make_little_endian (t : prim) (n : Z) (h : heap) :
  in_prim t n = true ->
  exists v h',
    bigint_s_make t n h = Done v h' /\
    sz v = sizeof t /\
    Z.of_nat (length (octets h' v)) = sizeof t /\
    (forall i : nat,
        Z.of_nat i < sizeof t ->
        octets h' v !! i = Some (le_octet (sizeof t) n i)) /\
    wf h' v = true /\
    h ⊆ h'.
Proof.
  intros _. pose proof (sizeof_pos t) as Hw.
  rewrite bigint_s_make_sized, make_sized_alloc by lia.
  eexists _, _. split; [reflexivity|].
  unfold octets, wf, is_u16. simpl. rewrite lookup_insert_eq. simpl.
  rewrite length_fmap, length_seq, forallb_le_octets.
  repeat split.
  - lia.
  - intros i Hi. rewrite list_lookup_fmap, lookup_seq_lt by lia. reflexivity.
  - tests_hold.
  - apply insert_subseteq, fresh_block_free.
Qed.

Lemma bigint_s_make_little_endian_witness :
  in_prim s16 (-2) = true /\
  exists v h',
    bigint_s_make s16 (-2) ∅ = Done v h' /\
    sz v = sizeof s16 /\
    Z.of_nat (length (octets h' v)) = sizeof s16 /\
    (forall i : nat,
        Z.of_nat i < sizeof s16 ->
        octets h' v !! i = Some (le_octet (sizeof s16) (-2) i)) /\
    wf h' v = true /\
    ∅ ⊆ h'.
Proof.
  split; [reflexivity | apply (bigint_s_make_little_endian s16 (-2) ∅)].
  reflexivity.
Defined.

(** The octets of [bigint_s_make16 (-2)] are [0xFE], [0xFF]. *)
Example make16_minus_2 :
  exists h',
    bigint_s_make16 (-2) ∅ = Done {| data := Ptr 0; sz := 2 |} h' /\
    h' !! 0%nat = Some [254; 255].
Proof. eexists. split; vm_compute; reflexivity. Qed.

(** ** Equality *)

(** The equality loop over two live blocks of [n] octets, entered at index
    [i] with enough fuel for the remaining octets: it returns from inside
    exactly when the two blocks differ at or above [i]. *)
Lemma cmp_eq_loop_live (a b : bigint_s) la lb (bufa bufb : list Z) n
  (h : heap) :
  data a = Ptr la -> data b = Ptr lb ->
  h !! la = Some bufa -> h !! lb = Some bufb ->
  Z.of_nat (length bufa) = n -> Z.of_nat (length bufb) = n -> n < 65536 ->
  forall (fuel : nat) (i : Z),
    0 <= i <= n -> n - i < Z.of_nat fuel ->
    cmp_eq_loop fuel a b n i h =
    Done (if decide (drop (Z.to_nat i) bufa = drop (Z.to_nat i) bufb)
          then None else Some BIGINT_FALSE) h.
Proof.
  intros Ha Hb Hla Hlb Hna Hnb Hn.
  induction fuel as [|fuel IH]; intros i Hi Hfuel; [lia|].
  simpl. destruct (i <? n) eqn:E.
  - apply Z.ltb_lt in E.
    destruct (lookup_lt_is_Some_2 bufa (Z.to_nat i)) as [x Hx]; [lia|].
    destruct (lookup_lt_is_Some_2 bufb (Z.to_nat i)) as [y Hy]; [lia|].
    unfold bind. rewrite Ha, Hb.
    rewrite (load_live la bufa i x), (load_live lb bufb i y) by (auto; lia).
    rewrite (drop_S _ _ _ Hx), (drop_S _ _ _ Hy).
    destruct (x =? y) eqn:Exy; simpl.
    + apply Z.eqb_eq in Exy. subst y.
      rewrite wrap16_u16 by lia. rewrite IH by lia.
      replace (Z.to_nat (i + 1)) with (S (Z.to_nat i)) by lia.
      f_equal. repeat case_decide; congruence.
    + apply Z.eqb_neq in Exy. unfold ret. f_equal.
      case_decide; congruence.
  - apply Z.ltb_ge in E. unfold ret. f_equal.
    rewrite !drop_ge by lia. now case_decide.
Qed.

(** [bigint_s_cmp_eq] reads and never writes. *)
Lemma cmp_eq_loop_frame (a b : bigint_s) n : forall (fuel : nat) i (h h' : heap) r,
  cmp_eq_loop fuel a b n i h = Done r h' -> h' = h.
Proof.
  induction fuel as [|fuel IH]; intros i h h' r; simpl; [discriminate|].
  destruct (i <? n); [|now intros [= _ ->]].
  intros H. apply bind_Done in H as (x & h1 & Hx & H).
  apply load_inv in Hx as [-> _].
  apply bind_Done in H as (y & h2 & Hy & H).
  apply load_inv in Hy as [-> _].
  destruct (negb (x =? y)); [now injection H as _ ->|eauto].
Qed.

(** X3: [bigint_s_cmp_eq] reads and never writes: whatever the operands and
    the heap (well formed or not, sharing a block or not), a call that
    returns leaves every block of the heap as it was. *)
Lemma bigint_s_cmp_eq_frame (fuel : nat) (a b : bigint_s) (h h' : heap) r :
  bigint_s_cmp_eq fuel a b h = Done r h' -> h' = h.
Proof.
  unfold bigint_s_cmp_eq.
  destruct ((sz a =? 0) || (sz b =? 0)); [now intros [= _ <-]|].
  destruct (negb (sz a =? sz b)); [now intros [= _ <-]|].
  intros H. apply bind_Done in H as (found & h1 & Hfound & H).
  apply cmp_eq_loop_frame in Hfound as ->.
  destruct found; now injection H as _ <-.
Qed.

Lemma bigint_s_cmp_eq_frame_witness :
  let h : heap := {[ 0%nat := [255; 128]; 1%nat := [255; 128] ]} in
  bigint_s_cmp_eq 3 {| data := Ptr 0; sz := 2 |}
                  {| data := Ptr 1; sz := 2 |} h = Done BIGINT_TRUE h /\
  h = h.
Proof.
  assert (bigint_s_cmp_eq 3 {| data := Ptr 0; sz := 2 |}
            {| data := Ptr 1; sz := 2 |}
            {[ 0%nat := [255; 128]; 1%nat := [255; 128] ]} =
          Done BIGINT_TRUE {[ 0%nat := [255; 128]; 1%nat := [255; 128] ]})
    as E by (vm_compute; reflexivity).
  split; [exact E|].
  exact (bigint_s_cmp_eq_frame 3 {| data := Ptr 0; sz := 2 |}
           {| data := Ptr 1; sz := 2 |}
           {[ 0%nat := [255; 128]; 1%nat := [255; 128] ]}
           {[ 0%nat := [255; 128]; 1%nat := [255; 128] ]} BIGINT_TRUE E).
Defined.

(** C2: [bigint_s_cmp_eq] on two values of the heap returns
    [BIGINT_UNDEFINED] if either has size 0; otherwise [BIGINT_FALSE] if the
    sizes differ, [BIGINT_FALSE] if the octets at some index differ, and
    [BIGINT_TRUE] exactly when the sizes are equal and the octets are
    pairwise equal.  The heap is left as it was. *)
Theorem bigint_s_cmp_eq_spec (fuel : nat) (a b : bigint_s) (h : heap) :
  wf h a = true -> wf h b = true -> sz a < Z.of_nat fuel ->
  exists r,
    bigint_s_cmp_eq fuel a b h = Done r h /\
    (sz a = 0 \/ sz b = 0 -> r = BIGINT_UNDEFINED) /\
    (sz a <> 0 -> sz b <> 0 -> sz a <> sz b -> r = BIGINT_FALSE) /\
    (sz a <> 0 -> sz b <> 0 ->
     forall (i : nat) (x y : Z),
       octets h a !! i = Some x -> octets h b !! i = Some y -> x <> y ->
       r = BIGINT_FALSE) /\
    (sz a <> 0 -> sz b <> 0 ->
     (r = BIGINT_TRUE <-> sz a = sz b /\ octets h a = octets h b)).
Proof.
  intros Hwa Hwb Hfuel. unfold bigint_s_cmp_eq.
  destruct (Z.eq_dec (sz a) 0) as [Ea|Ea].
  { rewrite Ea. simpl. exists BIGINT_UNDEFINED. repeat split; auto; lia. }
  destruct (Z.eq_dec (sz b) 0) as [Eb|Eb].
  { rewrite Eb, orb_true_r. exists BIGINT_UNDEFINED.
    repeat split; auto; lia. }
  rewrite (proj2 (Z.eqb_neq _ _) Ea), (proj2 (Z.eqb_neq _ _) Eb). simpl.
  pose proof (wf_length _ _ Hwa) as Hlena.
  pose proof (wf_length _ _ Hwb) as Hlenb.
  destruct (Z.eq_dec (sz a) (sz b)) as [E|E].
  - destruct (wf_block _ _ Hwa Ea) as (la & bufa & Ha & Hla & Hna & Hra & Hoa & _).
    destruct (wf_block _ _ Hwb Eb) as (lb & bufb & Hb & Hlb & Hnb & Hrb & Hob & _).
    rewrite (proj2 (Z.eqb_eq _ _) E). simpl. unfold bind.
    rewrite (cmp_eq_loop_live a b la lb bufa bufb (sz a)) by (auto; lia).
    rewrite Hoa, Hob. change (Z.to_nat 0) with 0%nat. rewrite !drop_0.
    case_decide as Hd.
    + exists BIGINT_TRUE. repeat split; auto; try lia; try discriminate.
      intros _ _ i x y Hx Hy Hxy. congruence.
    + exists BIGINT_FALSE. repeat split; auto; try lia; try discriminate.
      intros [_ ?]. contradiction.
  - rewrite (proj2 (Z.eqb_neq _ _) E). simpl.
    exists BIGINT_FALSE. repeat split; auto; try lia; try discriminate.
Qed.

Lemma bigint_s_cmp_eq_spec_witness :
  let h : heap := {[ 0%nat := [5; 0]; 1%nat := [5; 1] ]} in
  let a := {| data := Ptr 0; sz := 2 |} in
  let b := {| data := Ptr 1; sz := 2 |} in
  exists r,
    bigint_s_cmp_eq 3 a b h = Done r h /\
    (sz a = 0 \/ sz b = 0 -> r = BIGINT_UNDEFINED) /\
    (sz a <> 0 -> sz b <> 0 -> sz a <> sz b -> r = BIGINT_FALSE) /\
    (sz a <> 0 -> sz b <> 0 ->
     forall (i : nat) (x y : Z),
       octets h a !! i = Some x -> octets h b !! i = Some y -> x <> y ->
       r = BIGINT_FALSE) /\
    (sz a <> 0 -> sz b <> 0 ->
     (r = BIGINT_TRUE <-> sz a = sz b /\ octets h a = octets h b)).
Proof.
  apply (bigint_s_cmp_eq_spec 3 {| data := Ptr 0; sz := 2 |}
           {| data := Ptr 1; sz := 2 |}
           {[ 0%nat := [5; 0]; 1%nat := [5; 1] ]}).
  - reflexivity.
  - reflexivity.
  - simpl. lia.
Defined.

(** ** Empty operands *)

(** C4: when at least one operand has size 0, each of [bigint_s_cmp_gt],
    [bigint_s_cmp_ge] and [bigint_s_cmp_eq] returns [BIGINT_UNDEFINED], with
    the heap untouched. *)
Theorem cmp_empty_undefined (fuel : nat) (a b : bigint_s) (h : heap) :
  sz a = 0 \/ sz b = 0 ->
  bigint_s_cmp_gt fuel a b h = Done BIGINT_UNDEFINED h /\
  bigint_s_cmp_ge fuel a b h = Done BIGINT_UNDEFINED h /\
  bigint_s_cmp_eq fuel a b h = Done BIGINT_UNDEFINED h.
Proof.
  intros H.
  assert ((sz a =? 0) || (sz b =? 0) = true) as E.
  { apply orb_true_iff. destruct H as [H|H]; [left|right]; now apply Z.eqb_eq. }
  unfold bigint_s_cmp_gt, bigint_s_cmp_ge, bigint_s_cmp_impl, bigint_s_cmp_eq.
  rewrite E. repeat split.
Qed.

Lemma cmp_empty_undefined_witness :
  let a := {| data := NULL; sz := 0 |} in
  let b := {| data := Ptr 0; sz := 1 |} in
  let h : heap := {[ 0%nat := [7] ]} in
  bigint_s_cmp_gt 0 a b h = Done BIGINT_UNDEFINED h /\
  bigint_s_cmp_ge 0 a b h = Done BIGINT_UNDEFINED h /\
  bigint_s_cmp_eq 0 a b h = Done BIGINT_UNDEFINED h.
Proof.
  apply (cmp_empty_undefined 0 {| data := NULL; sz := 0 |}
           {| data := Ptr 0; sz := 1 |} {[ 0%nat := [7] ]}).
  left. reflexivity.
Defined.

(** ** Ordering: the sign test and the masking *)

Lemma octet_range x : is_octet x = true -> 0 <= x < 256.
Proof.
  unfold is_octet. intros H. apply andb_true_iff in H as [H1 H2]. lia.
Qed.

Lemma forallb_octet_lookup (buf : list Z) k x :
  forallb is_octet buf = true -> buf !! k = Some x -> 0 <= x < 256.
Proof.
  intros H Hx. apply octet_range.
  rewrite forallb_forall in H. apply H.
  apply list_elem_of_In, list_elem_of_lookup. eauto.
Qed.

Lemma land_7F_range x : 0 <= x -> 0 <= Z.land x 0x7F < 128.
Proof.
  intros Hx. change 0x7F with (Z.ones 7). rewrite Z.land_ones by lia.
  apply Z.mod_pos_bound. lia.
Qed.

(** The top octet of a non-empty value of the heap. *)
Lemma wf_top h v :
  wf h v = true -> sz v <> 0 ->
  exists (l : nat) (buf : list Z) (x : Z),
    data v = Ptr l /\ h !! l = Some buf /\
    Z.of_nat (length buf) = sz v /\ 0 < sz v < 65536 /\
    octets h v = buf /\ forallb is_octet buf = true /\
    buf !! Z.to_nat (sz v - 1) = Some x /\ 0 <= x < 256.
Proof.
  intros Hw Hne.
  destruct (wf_block h v Hw Hne) as (l & buf & Hd & Hl & Hlen & Hr & Ho & Hoct).
  destruct (lookup_lt_is_Some_2 buf (Z.to_nat (sz v - 1))) as [x Hx]; [lia|].
  exists l, buf, x. repeat split; auto; try lia;
    eapply forallb_octet_lookup; eauto.
Qed.

Lemma isnegative_live h v :
  wf h v = true -> sz v <> 0 ->
  isnegative v h = Done (if negative h v then 1 else 0) h.
Proof.
  intros Hw Hne.
  destruct (wf_top h v Hw Hne)
    as (l & buf & x & Hd & Hl & Hlen & Hr & Ho & Hoct & Hx & Hxr).
  unfold isnegative, bind, negative. rewrite Hd, Ho, Hx.
  rewrite (load_live l buf _ x) by (auto; lia). unfold ret. simpl.
  f_equal. rewrite Z.shiftr_div_pow2 by lia. change (2 ^ 7) with 128.
  destruct (Z.eq_dec (x / 128) 0) as [E|E].
  - rewrite E. reflexivity.
  - rewrite (proj2 (Z.eqb_neq _ _) E). simpl.
    assert (x / 128 < 2) by (apply Z.div_lt_upper_bound; lia).
    assert (0 <= x / 128) by (apply Z.div_pos; lia). lia.
Qed.

(** Lines 142 and 143, each on its operand: the block of the caller is
    rewritten with the sign bit cleared. *)
Lemma mask_step {B} (k : M B) h v :
  wf h v = true -> sz v <> 0 ->
  (do x <- load (data v) (sz v - 1) ;
   store (data v) (sz v - 1) (Z.land x 0x7F) ;; k) h = k (mask_sign h v).
Proof.
  intros Hw Hne.
  destruct (wf_top h v Hw Hne)
    as (l & buf & x & Hd & Hl & Hlen & Hr & Ho & Hoct & Hx & Hxr).
  unfold bind, mask_sign, clear_sign. rewrite Hd, Ho.
  rewrite (load_live l buf _ x) by (auto; lia).
  rewrite (store_live l buf) by (auto; lia).
  replace (Nat.pred (length buf)) with (Z.to_nat (sz v - 1)) by lia.
  rewrite Hx. simpl. do 3 f_equal.
  unfold wrap8. apply Z.mod_small.
  pose proof (land_7F_range x). lia.
Qed.

Lemma clear_sign_length buf : length (clear_sign buf) = length buf.
Proof. unfold clear_sign. apply length_insert. Qed.

Lemma clear_sign_octets buf :
  forallb is_octet buf = true -> forallb is_octet (clear_sign buf) = true.
Proof.
  intros H. apply forallb_forall. intros y Hy.
  apply list_elem_of_In, list_elem_of_lookup in Hy as [k Hk].
  unfold clear_sign in Hk.
  destruct (decide (k = Nat.pred (length buf))) as [->|Hne].
  - destruct (buf !! Nat.pred (length buf)) as [x|] eqn:Hx.
    + rewrite list_lookup_insert_eq in Hk
        by (apply lookup_lt_Some in Hx; lia).
      injection Hk as <-. simpl.
      pose proof (forallb_octet_lookup _ _ _ H Hx).
      pose proof (land_7F_range x). unfold is_octet. tests_hold.
    + rewrite list_insert_ge in Hk by (apply lookup_ge_None in Hx; lia).
      congruence.
  - rewrite list_lookup_insert_ne in Hk by auto.
    pose proof (forallb_octet_lookup _ _ _ H Hk). unfold is_octet. tests_hold.
Qed.

(** Masking one value keeps every value of the heap well formed. *)
Lemma wf_mask_sign h v u :
  wf h v = true -> wf h u = true -> wf (mask_sign h v) u = true.
Proof.
  intros Hv Hu. unfold mask_sign.
  destruct (data v) as [|l] eqn:Hd; [exact Hu|].
  unfold wf in *. apply andb_true_iff in Hu as [Hu1 Hu2].
  rewrite Hu1. simpl.
  destruct (data u) as [|l'] eqn:Hd'; [exact Hu2|].
  destruct (decide (l = l')) as [<-|Hne].
  - rewrite lookup_insert_eq. unfold octets. rewrite Hd.
    destruct (h !! l) as [buf|]; [|discriminate]. simpl.
    apply andb_true_iff in Hu2 as [H1 H2].
    rewrite clear_sign_length, H1. simpl. now apply clear_sign_octets.
  - rewrite lookup_insert_ne by auto. exact Hu2.
Qed.

(** ** Ordering: the two loops *)

(** The loop of lines 155-163 over a live block, entered at index [i]: it
    returns from inside exactly when one of the octets [sml_sz] ... [i] is
    not zero. *)
Lemma cmp_high_loop_live (big : bigint_s) l (buf : list Z) n sml_sz a_big
  a_neg (h : heap) :
  data big = Ptr l -> h !! l = Some buf ->
  Z.of_nat (length buf) = n -> n < 65536 -> 0 < sml_sz ->
  forall (fuel : nat) (i : Z),
    sml_sz - 1 <= i < n -> i - sml_sz + 1 < Z.of_nat fuel ->
    cmp_high_loop fuel big sml_sz a_big a_neg i h =
    Done (if existsb nonzero
               (drop (Z.to_nat sml_sz) (take (Z.to_nat (i + 1)) buf))
          then Some (high_verdict a_big a_neg) else None) h.
Proof.
  intros Hd Hl Hlen Hn Hsml.
  induction fuel as [|fuel IH]; intros i Hi Hfuel; [lia|].
  simpl. destruct (sml_sz <=? i) eqn:E.
  - apply Z.leb_le in E.
    destruct (lookup_lt_is_Some_2 buf (Z.to_nat i)) as [x Hx]; [lia|].
    unfold bind. rewrite Hd, (load_live l buf i x) by (auto; lia).
    replace (Z.to_nat (i + 1)) with (S (Z.to_nat i)) by lia.
    rewrite (take_S_r _ _ _ Hx).
    rewrite drop_app_le by (rewrite length_take; lia).
    rewrite existsb_app. simpl. rewrite orb_false_r.
    fold (nonzero x). destruct (nonzero x).
    + rewrite orb_true_r. reflexivity.
    + rewrite orb_false_r, wrap16_u16 by lia.
      rewrite IH by lia. now replace (i - 1 + 1) with i by lia.
  - apply Z.leb_gt in E.
    rewrite drop_ge by (rewrite length_take; lia). reflexivity.
Qed.

(** The scan of lines 173-183 starts at index [sml_sz], the length of the
    shorter block: its first read is out of bounds. *)
Lemma cmp_scan_loop_past_end (a b : bigint_s) a_neg (h : heap) (fuel : nat) :
  wf h a = true -> wf h b = true -> sz a <> 0 -> sz b <> 0 ->
  cmp_scan_loop (S fuel) a b a_neg (Z.min (sz a) (sz b)) h =
  Trap (OutOfBounds (block_of (if sz b <? sz a then b else a))
                    (Z.min (sz a) (sz b))).
Proof.
  intros Hwa Hwb Ea Eb.
  destruct (wf_block _ _ Hwa Ea) as (la & bufa & Ha & Hla & Hna & Hra & _).
  destruct (wf_block _ _ Hwb Eb) as (lb & bufb & Hb & Hlb & Hnb & Hrb & _).
  simpl. destruct (0 <=? Z.min (sz a) (sz b)) eqn:E0; [|lia].
  unfold bind, block_of. rewrite Ha, Hb.
  destruct (sz b <? sz a) eqn:E.
  - apply Z.ltb_lt in E. rewrite Hb.
    destruct (lookup_lt_is_Some_2 bufa (Z.to_nat (Z.min (sz a) (sz b))))
      as [x Hx]; [lia|].
    rewrite (load_live la bufa _ x) by (auto; lia).
    now rewrite (load_past_end lb bufb) by (auto; lia).
  - apply Z.ltb_ge in E. rewrite Ha.
    now rewrite (load_past_end la bufa) by (auto; lia).
Qed.

Lemma sz_mask_sign_octets h v u :
  wf h v = true -> wf h u = true ->
  Z.of_nat (length (octets (mask_sign h v) u)) = sz u.
Proof. intros Hv Hu. apply wf_length. now apply wf_mask_sign. Qed.

(** [bigint_s_cmp_impl] on two values of the heap, with fuel for the
    longer one.  Neither [orequ] nor any octet below the shorter length
    takes part in the outcome. *)
Lemma bigint_s_cmp_impl_outcome (fuel : nat) (a b : bigint_s) (orequ : Z)
  (h : heap) :
  wf h a = true -> wf h b = true ->
  Z.max (sz a) (sz b) <= Z.of_nat fuel ->
  bigint_s_cmp_impl fuel a b orequ h = cmp_impl_outcome a b h.
Proof.
  intros Hwa Hwb Hfuel. unfold bigint_s_cmp_impl, cmp_impl_outcome.
  destruct ((sz a =? 0) || (sz b =? 0)) eqn:E; [reflexivity|].
  apply orb_false_iff in E as [Ea Eb].
  apply Z.eqb_neq in Ea, Eb.
  unfold bind at 1. rewrite (isnegative_live h a) by auto.
  unfold bind at 1. rewrite (isnegative_live h b) by auto.
  destruct (negative h a) eqn:Na, (negative h b) eqn:Nb; simpl;
    try reflexivity.
  all: rewrite mask_step by auto.
  all: rewrite mask_step by (auto using wf_mask_sign).
  all: set (h2 := mask_sign (mask_sign h a) b).
  all: assert (wf h2 a = true) as Hwa2 by (unfold h2; auto using wf_mask_sign).
  all: assert (wf h2 b = true) as Hwb2 by (unfold h2; auto using wf_mask_sign).
  all: destruct (wf_block _ _ Hwa2 Ea)
         as (la & bufa & Ha & Hla & Hna & Hra & Hoa & _).
  all: destruct (wf_block _ _ Hwb2 Eb)
         as (lb & bufb & Hb & Hlb & Hnb & Hrb & Hob & _).
  all: destruct fuel as [|fuel]; [lia|].
  all: replace (if sz a <? sz b then sz a else sz b) with (Z.min (sz a) (sz b))
         by (destruct (sz a <? sz b) eqn:E; lia).
  all: destruct (sz a =? sz b) eqn:Es; cbn [negb andb];
         [ unfold bind, ret;
           rewrite cmp_scan_loop_past_end by auto; reflexivity |].
  all: apply Z.eqb_neq in Es.
  all: unfold bind at 1.
  all: destruct (sz b <? sz a) eqn:Eab;
         [ apply Z.ltb_lt in Eab;
           rewrite wrap16_u16 by lia;
           rewrite (cmp_high_loop_live a la bufa (sz a)) by (auto; lia);
           replace (Z.to_nat (sz a - 1 + 1)) with (length bufa) by lia;
           rewrite firstn_all, Hoa
         | apply Z.ltb_ge in Eab;
           rewrite wrap16_u16 by lia;
           rewrite (cmp_high_loop_live b lb bufb (sz b)) by (auto; lia);
           replace (Z.to_nat (sz b - 1 + 1)) with (length bufb) by lia;
           rewrite firstn_all, Hob ].
  all: match goal with
       | |- context [existsb ?f ?l] => destruct (existsb f l)
       end; [reflexivity|].
  all: unfold bind, ret; rewrite cmp_scan_loop_past_end by auto.
  all: try rewrite (proj2 (Z.ltb_lt _ _) Eab).
  all: try rewrite (proj2 (Z.ltb_ge _ _) Eab).
  all: reflexivity.
Qed.

(** ** Ordering: what a returning call has done *)

(** The two loops read and never write; a value returned from inside the
    first loop is the verdict on the high octets, one returned from inside
    the scan is [BIGINT_TRUE] or [BIGINT_FALSE]. *)
Lemma cmp_high_loop_inv (big : bigint_s) sml_sz a_big a_neg :
  forall (fuel : nat) i (h h' : heap) r,
    cmp_high_loop fuel big sml_sz a_big a_neg i h = Done r h' ->
    h' = h /\ (r = None \/ r = Some (high_verdict a_big a_neg)).
Proof.
  induction fuel as [|fuel IH]; intros i h h' r; simpl; [discriminate|].
  destruct (sml_sz <=? i); [|intros [= <- <-]; auto].
  intros H. apply bind_Done in H as (x & h1 & Hx & H).
  apply load_inv in Hx as [-> _].
  destruct (negb (x =? 0)); [injection H as <- <-; auto | eauto].
Qed.

Lemma cmp_scan_loop_inv (a b : bigint_s) a_neg :
  forall (fuel : nat) i (h h' : heap) r,
    cmp_scan_loop fuel a b a_neg i h = Done r h' ->
    h' = h /\
    (r = Some BIGINT_TRUE \/ r = Some BIGINT_FALSE \/ (r = None /\ i < 0)).
Proof.
  induction fuel as [|fuel IH]; intros i h h' r; simpl; [discriminate|].
  destruct (0 <=? i) eqn:E;
    [|apply Z.leb_gt in E; intros [= <- <-]; auto].
  intros H. apply bind_Done in H as (x & h1 & Hx & H).
  apply load_inv in Hx as [-> _].
  apply bind_Done in H as (y & h2 & Hy & H).
  apply load_inv in Hy as [-> _].
  destruct (y <? x).
  { injection H as <- <-. destruct (a_neg =? 0); auto. }
  apply bind_Done in H as (x' & h3 & Hx' & H).
  apply load_inv in Hx' as [-> _].
  apply bind_Done in H as (y' & h4 & Hy' & H).
  apply load_inv in Hy' as [-> _].
  destruct (x' <? y').
  { injection H as <- <-. destruct (a_neg =? 0); auto. }
  apply IH in H as [-> [H|[H|[H1 H2]]]]; auto.
  pose proof (wrap16_range (i - 1)). lia.
Qed.

(** [bigint_s_cmp_impl] answers [BIGINT_UNDEFINED] for an empty operand
    only, whatever the heap holds. *)
Lemma bigint_s_cmp_impl_undefined (fuel : nat) (a b : bigint_s) orequ
  (h h' : heap) :
  bigint_s_cmp_impl fuel a b orequ h = Done BIGINT_UNDEFINED h' ->
  sz a = 0 \/ sz b = 0.
Proof.
  unfold bigint_s_cmp_impl.
  destruct ((sz a =? 0) || (sz b =? 0)) eqn:E.
  { intros _. apply orb_true_iff in E as [E|E]; apply Z.eqb_eq in E; auto. }
  intros H. exfalso.
  apply bind_Done in H as (a_neg & h1 & _ & H).
  apply bind_Done in H as (b_neg & h2 & _ & H).
  destruct (negb (a_neg =? b_neg)).
  { destruct (b_neg =? 0); discriminate. }
  apply bind_Done in H as (x & h3 & _ & H).
  apply bind_Done in H as ([] & h4 & _ & H).
  apply bind_Done in H as (y & h5 & _ & H).
  apply bind_Done in H as ([] & h6 & _ & H).
  apply bind_Done in H as (early & h7 & Hearly & H).
  destruct early as [r|].
  - injection H as -> _.
    destruct (negb (sz a =? sz b)); [|discriminate].
    apply cmp_high_loop_inv in Hearly as [_ [Hr|Hr]]; [discriminate|].
    injection Hr as Hr. unfold high_verdict in Hr.
    destruct (sz b <? sz a), (a_neg =? 0); discriminate.
  - apply bind_Done in H as (found & h8 & Hfound & H).
    destruct found as [r|].
    + injection H as -> _.
      apply cmp_scan_loop_inv in Hfound as [_ [Hr|[Hr|[Hr _]]]];
        discriminate.
    + destruct (orequ =? 0); discriminate.
Qed.

Lemma bigint_s_cmp_eq_undefined (fuel : nat) (a b : bigint_s) (h h' : heap) :
  bigint_s_cmp_eq fuel a b h = Done BIGINT_UNDEFINED h' ->
  sz a = 0 \/ sz b = 0.
Proof.
  unfold bigint_s_cmp_eq.
  destruct ((sz a =? 0) || (sz b =? 0)) eqn:E.
  { intros _. apply orb_true_iff in E as [E|E]; apply Z.eqb_eq in E; auto. }
  destruct (negb (sz a =? sz b)); [discriminate|].
  intros H. exfalso.
  apply bind_Done in H as (found & h1 & Hfound & H).
  destruct found as [r|]; [|discriminate].
  injection H as -> _. revert Hfound. generalize 0 at 1. generalize h.
  induction fuel as [|fuel IH]; intros h0 i; simpl; [discriminate|].
  destruct (i <? sz a); [|discriminate].
  intros H. apply bind_Done in H as (x & h2 & _ & H).
  apply bind_Done in H as (y & h3 & _ & H).
  destruct (negb (x =? y)); [discriminate|eauto].
Qed.

(** The heap a returning [bigint_s_cmp_impl] leaves behind: the caller's
    heap when an operand is empty or the signs differ, and the heap with
    both sign bits cleared in every other case. *)
Lemma bigint_s_cmp_impl_heap (fuel : nat) (a b : bigint_s) orequ
  (h h' : heap) r :
  wf h a = true -> wf h b = true ->
  bigint_s_cmp_impl fuel a b orequ h = Done r h' ->
  h' = if (sz a =? 0) || (sz b =? 0) || negb (eqb (negative h a) (negative h b))
       then h else mask_sign (mask_sign h a) b.
Proof.
  intros Hwa Hwb. unfold bigint_s_cmp_impl.
  destruct ((sz a =? 0) || (sz b =? 0)) eqn:E; [now intros [= _ <-]|].
  apply orb_false_iff in E as [Ea Eb].
  apply Z.eqb_neq in Ea, Eb.
  unfold bind at 1. rewrite (isnegative_live h a) by auto.
  unfold bind at 1. rewrite (isnegative_live h b) by auto.
  destruct (negative h a) eqn:Na, (negative h b) eqn:Nb; simpl;
    try (now intros [= _ <-]).
  all: rewrite mask_step by auto.
  all: rewrite mask_step by (auto using wf_mask_sign).
  all: intros H; apply bind_Done in H as (early & h1 & Hearly & H).
  all: assert (h1 = mask_sign (mask_sign h a) b) as ->
         by (destruct (negb (sz a =? sz b));
             [ now apply cmp_high_loop_inv in Hearly as [-> _]
             | now injection Hearly as _ <- ]).
  all: destruct early as [r'|]; [now injection H as _ <-|].
  all: apply bind_Done in H as (found & h2 & Hfound & H).
  all: apply cmp_scan_loop_inv in Hfound as [-> _].
  all: destruct found; now injection H as _ <-.
Qed.

Lemma clear_sign_idem buf : clear_sign (clear_sign buf) = clear_sign buf.
Proof.
  unfold clear_sign. rewrite length_insert.
  set (k := Nat.pred (length buf)).
  destruct (buf !! k) as [x|] eqn:Hx.
  - rewrite list_lookup_insert_eq by (apply lookup_lt_Some in Hx; lia).
    rewrite list_insert_insert_eq. simpl.
    now rewrite <- Z.land_assoc, Z.land_diag.
  - apply lookup_ge_None in Hx.
    rewrite (list_insert_ge buf) by lia. now rewrite list_insert_ge by lia.
Qed.

(** The octets of both operands once lines 142 and 143 have run, also when
    the two operands share one block. *)
Lemma octets_mask_both h a b :
  wf h a = true -> wf h b = true -> sz a <> 0 -> sz b <> 0 ->
  octets (mask_sign (mask_sign h a) b) a = clear_sign (octets h a) /\
  octets (mask_sign (mask_sign h a) b) b = clear_sign (octets h b).
Proof.
  intros Hwa Hwb Ea Eb.
  destruct (wf_block _ _ Hwa Ea) as (la & bufa & Ha & Hla & _ & _ & Hoa & _).
  destruct (wf_block _ _ Hwb Eb) as (lb & bufb & Hb & Hlb & _ & _ & Hob & _).
  rewrite Hoa, Hob. unfold mask_sign. rewrite Ha, Hb, Hoa.
  unfold octets. rewrite Ha, Hb.
  destruct (decide (la = lb)) as [<-|Hne].
  - assert (bufb = bufa) as -> by congruence.
    rewrite !lookup_insert_eq. simpl. now rewrite clear_sign_idem.
  - rewrite (lookup_insert_ne h la lb) by congruence. rewrite Hlb. simpl.
    rewrite (lookup_insert_ne _ lb la) by congruence.
    rewrite !lookup_insert_eq. auto.
Qed.

Lemma negative_top h v :
  wf h v = true -> negative h v = true ->
  sz v <> 0 /\
  exists x, octets h v !! Nat.pred (length (octets h v)) = Some x /\ 128 <= x.
Proof.
  intros Hw Hn. pose proof (wf_length _ _ Hw) as Hlen.
  unfold negative in Hn.
  destruct (octets h v !! Z.to_nat (sz v - 1)) as [x|] eqn:Hx;
    [|discriminate].
  pose proof (lookup_lt_Some _ _ _ Hx) as Hlt.
  assert (sz v <> 0) as Hne by lia. split; [exact Hne|].
  exists x. replace (Nat.pred (length (octets h v)))
    with (Z.to_nat (sz v - 1)) by lia.
  split; [exact Hx|]. simpl in Hn.
  destruct (Z_lt_le_dec x 128) as [Hlt128|]; [|assumption].
  destruct (wf_block _ _ Hw Hne) as (_ & buf & _ & _ & _ & _ & Ho & Hoct).
  rewrite Ho in Hx. pose proof (forallb_octet_lookup _ _ _ Hoct Hx).
  rewrite Z.shiftr_div_pow2, Z.div_small in Hn by (simpl; lia).
  discriminate.
Qed.

Lemma clear_sign_changes buf x :
  buf !! Nat.pred (length buf) = Some x -> 128 <= x -> clear_sign buf <> buf.
Proof.
  intros Hx Hge Heq. pose proof (lookup_lt_Some _ _ _ Hx) as Hlt.
  assert (clear_sign buf !! Nat.pred (length buf) = Some (Z.land x 0x7F)) as H.
  { unfold clear_sign. rewrite Hx. simpl. now apply list_lookup_insert_eq. }
  rewrite Heq, Hx in H. injection H as H.
  pose proof (land_7F_range x). lia.
Qed.

(** C1 (the code departs from it): when both operands are negative, a call
    of [bigint_s_cmp_gt] or [bigint_s_cmp_ge] that returns has cleared the
    sign bit in the caller's block of each operand: the octets the caller
    sees afterwards are [clear_sign] of the former ones, and differ from
    them. *)
Theorem bigint_s_cmp_clears_sign_bits (fuel : nat) (a b : bigint_s)
  (h h' : heap) (r : bigint_cmp_retval) :
  wf h a = true -> wf h b = true ->
  negative h a = true -> negative h b = true ->
  bigint_s_cmp_gt fuel a b h = Done r h' \/
  bigint_s_cmp_ge fuel a b h = Done r h' ->
  octets h' a = clear_sign (octets h a) /\
  octets h' b = clear_sign (octets h b) /\
  octets h' a <> octets h a /\
  octets h' b <> octets h b.
Proof.
  intros Hwa Hwb Na Nb H.
  destruct (negative_top _ _ Hwa Na) as (Ea & xa & Hxa & Hga).
  destruct (negative_top _ _ Hwb Nb) as (Eb & xb & Hxb & Hgb).
  assert (h' = mask_sign (mask_sign h a) b) as ->.
  { destruct H as [H|H];
      apply (bigint_s_cmp_impl_heap _ _ _ _ _ _ _ Hwa Hwb) in H;
      rewrite Na, Nb in H;
      rewrite (proj2 (Z.eqb_neq _ _) Ea), (proj2 (Z.eqb_neq _ _) Eb) in H;
      exact H. }
  destruct (octets_mask_both h a b Hwa Hwb Ea Eb) as [-> ->].
  repeat split; eauto using clear_sign_changes.
Qed.

Lemma bigint_s_cmp_clears_sign_bits_witness :
  let h : heap := {[ 0%nat := [255; 255]; 1%nat := [255] ]} in
  let h' : heap := {[ 0%nat := [255; 127]; 1%nat := [127] ]} in
  let a := {| data := Ptr 0; sz := 2 |} in
  let b := {| data := Ptr 1; sz := 1 |} in
  bigint_s_cmp_gt 2 a b h = Done BIGINT_FALSE h' /\
  octets h' a = clear_sign (octets h a) /\
  octets h' b = clear_sign (octets h b) /\
  octets h' a <> octets h a /\
  octets h' b <> octets h b.
Proof.
  assert (bigint_s_cmp_gt 2 {| data := Ptr 0; sz := 2 |}
            {| data := Ptr 1; sz := 1 |}
            {[ 0%nat := [255; 255]; 1%nat := [255] ]} =
          Done BIGINT_FALSE {[ 0%nat := [255; 127]; 1%nat := [127] ]}) as E
    by (vm_compute; reflexivity).
  split; [exact E|].
  apply (bigint_s_cmp_clears_sign_bits 2 {| data := Ptr 0; sz := 2 |}
           {| data := Ptr 1; sz := 1 |}
           {[ 0%nat := [255; 255]; 1%nat := [255] ]}
           {[ 0%nat := [255; 127]; 1%nat := [127] ]} BIGINT_FALSE);
    [reflexivity | reflexivity | reflexivity | reflexivity | left; exact E].
Defined.

(** ** Ordering: the scan *)

(** Equal sizes and equal signs: the call gets to the scan, whose first
    read is at index [sz a] of [a]'s block of [sz a] octets. *)
Lemma bigint_s_cmp_impl_equal_size (fuel : nat) (a b : bigint_s) orequ
  (h : heap) :
  wf h a = true -> wf h b = true -> sz a <> 0 -> sz a = sz b ->
  negative h a = negative h b ->
  bigint_s_cmp_impl fuel a b orequ h =
  match fuel with
  | O => Timeout
  | S _ => Trap (OutOfBounds (block_of a) (sz a))
  end.
Proof.
  intros Hwa Hwb Ea Es Hn. assert (sz b <> 0) as Eb by lia.
  unfold bigint_s_cmp_impl.
  rewrite (proj2 (Z.eqb_neq _ _) Ea), (proj2 (Z.eqb_neq _ _) Eb). simpl.
  unfold bind at 1. rewrite (isnegative_live h a) by auto.
  unfold bind at 1. rewrite (isnegative_live h b) by auto.
  rewrite Hn, Z.eqb_refl. simpl.
  rewrite mask_step by auto.
  rewrite mask_step by (auto using wf_mask_sign).
  rewrite (proj2 (Z.eqb_eq _ _) Es). simpl.
  unfold bind at 1. unfold ret at 1.
  destruct fuel as [|fuel]; [reflexivity|].
  unfold bind.
  replace (if sz a <? sz b then sz a else sz b) with (Z.min (sz a) (sz b))
    by (destruct (sz a <? sz b) eqn:E; lia).
  rewrite cmp_scan_loop_past_end by (auto using wf_mask_sign).
  rewrite (proj2 (Z.ltb_ge _ _)) by lia. now rewrite Z.min_l by lia.
Qed.

Lemma lookup_after_alloc (h : heap) l (buf buf' : list Z) :
  h !! l = Some buf -> <[fresh (dom h) := buf']> h !! l = Some buf.
Proof.
  intros Hl. rewrite lookup_insert_ne; [exact Hl|].
  intros E. pose proof (fresh_block_free h) as Hf. congruence.
Qed.

(** C3 (the code departs from it): [bigint_s_cmp_gt] applied to
    [bigint_s_make8 5] and [bigint_s_make8 3] does not return
    [BIGINT_TRUE].  Both blocks hold one octet and the scan starts at index
    1 of the first operand's block: the call stops on that read, whatever
    the heap it is made in and whatever the fuel. *)
Theorem cmp_gt_make8_5_3_reads_past_end (h : heap) (fuel : nat) :
  with_operands (bigint_s_make8 5) (bigint_s_make8 3)
                (bigint_s_cmp_gt fuel) h =
  match fuel with
  | O => Timeout
  | S _ => Trap (OutOfBounds (fresh (dom h)) 1)
  end.
Proof.
  unfold with_operands, bigint_s_make8.
  unfold bind at 1. rewrite make_sized_alloc by lia.
  change (le_octet 1 5 <$> seq 0 (Z.to_nat 1)) with [5].
  set (l1 := fresh (dom h)). set (h1 := <[l1 := [5]]> h).
  unfold bind at 1. rewrite make_sized_alloc by lia.
  change (le_octet 1 3 <$> seq 0 (Z.to_nat 1)) with [3].
  set (l2 := fresh (dom h1)). set (h2 := <[l2 := [3]]> h1).
  assert (h2 !! l1 = Some [5]) as H1
    by (apply lookup_after_alloc, lookup_insert_eq).
  assert (h2 !! l2 = Some [3]) as H2 by apply lookup_insert_eq.
  unfold bind, bigint_s_cmp_gt.
  rewrite bigint_s_cmp_impl_equal_size.
  - now destruct fuel.
  - unfold wf. simpl. now rewrite H1.
  - unfold wf. simpl. now rewrite H2.
  - simpl. lia.
  - reflexivity.
  - unfold negative, octets. simpl. now rewrite H1, H2.
Qed.

(** C9 (the code departs from it): unless the comparison is over before
    the scan (an empty operand, different signs, or a non-zero octet of the
    longer operand above the shorter length), [bigint_s_cmp_gt] and
    [bigint_s_cmp_ge] read index [min (sz a) (sz b)] of the shorter
    operand, one past its last octet, and stop there.  Operands of equal
    size and equal sign are always in this case. *)
Theorem bigint_s_cmp_scan_out_of_bounds (fuel : nat) (a b : bigint_s)
  (h : heap) :
  wf h a = true -> wf h b = true ->
  Z.max (sz a) (sz b) <= Z.of_nat fuel ->
  decided_early a b h = false ->
  bigint_s_cmp_gt fuel a b h = Trap (scan_fault a b) /\
  bigint_s_cmp_ge fuel a b h = Trap (scan_fault a b).
Proof.
  intros Hwa Hwb Hfuel Hd. unfold bigint_s_cmp_gt, bigint_s_cmp_ge.
  rewrite !bigint_s_cmp_impl_outcome by auto.
  unfold decided_early in Hd.
  apply orb_false_iff in Hd as [Hd H3].
  apply orb_false_iff in Hd as [Hd H2].
  unfold cmp_impl_outcome, scan_fault. rewrite Hd, H2, H3. auto.
Qed.

Lemma bigint_s_cmp_scan_out_of_bounds_witness :
  let h : heap := {[ 0%nat := [5]; 1%nat := [3] ]} in
  let a := {| data := Ptr 0; sz := 1 |} in
  let b := {| data := Ptr 1; sz := 1 |} in
  bigint_s_cmp_gt 1 a b h = Trap (OutOfBounds 0 1) /\
  bigint_s_cmp_ge 1 a b h = Trap (OutOfBounds 0 1).
Proof.
  apply (bigint_s_cmp_scan_out_of_bounds 1 {| data := Ptr 0; sz := 1 |}
           {| data := Ptr 1; sz := 1 |} {[ 0%nat := [5]; 1%nat := [3] ]}).
  - reflexivity.
  - reflexivity.
  - simpl. lia.
  - reflexivity.
Defined.

(** ** Operands made from primitives *)

Lemma bigint_s_make_size t n (h h' : heap) v :
  bigint_s_make t n h = Done v h' -> sz v = sizeof t.
Proof.
  pose proof (sizeof_pos t).
  rewrite bigint_s_make_sized, make_sized_alloc by lia.
  now intros [= <- _].
Qed.

(** C10: a value made from a primitive is not empty, so none of the three
    comparisons answers [BIGINT_UNDEFINED] on two such values, in whatever
    heap the comparison runs. *)
Theorem made_operands_never_undefined (t1 t2 : prim) (n1 n2 : Z)
  (h h1 h2 h3 : heap) (a b : bigint_s) (fuel : nat) :
  bigint_s_make t1 n1 h = Done a h1 ->
  bigint_s_make t2 n2 h1 = Done b h2 ->
  0 < sz a /\ 0 < sz b /\
  returned_undefined (bigint_s_cmp_gt fuel a b h3) = false /\
  returned_undefined (bigint_s_cmp_ge fuel a b h3) = false /\
  returned_undefined (bigint_s_cmp_eq fuel a b h3) = false.
Proof.
  intros Ha Hb.
  apply bigint_s_make_size in Ha, Hb.
  pose proof (sizeof_pos t1). pose proof (sizeof_pos t2).
  repeat split; try lia.
  - destruct (bigint_s_cmp_gt fuel a b h3) as [[]| |] eqn:E; try reflexivity.
    apply bigint_s_cmp_impl_undefined in E. lia.
  - destruct (bigint_s_cmp_ge fuel a b h3) as [[]| |] eqn:E; try reflexivity.
    apply bigint_s_cmp_impl_undefined in E. lia.
  - destruct (bigint_s_cmp_eq fuel a b h3) as [[]| |] eqn:E; try reflexivity.
    apply bigint_s_cmp_eq_undefined in E. lia.
Qed.

Lemma made_operands_never_undefined_witness :
  let a := {| data := Ptr 0; sz := 2 |} in
  let b := {| data := Ptr 1; sz := 1 |} in
  let h2 : heap := {[ 0%nat := [244; 1]; 1%nat := [1] ]} in
  0 < sz a /\ 0 < sz b /\
  returned_undefined (bigint_s_cmp_gt 3 a b h2) = false /\
  returned_undefined (bigint_s_cmp_ge 3 a b h2) = false /\
  returned_undefined (bigint_s_cmp_eq 3 a b h2) = false.
Proof.
  apply (made_operands_never_undefined s16 s8 500 1 ∅
           {[ 0%nat := [244; 1] ]} {[ 0%nat := [244; 1]; 1%nat := [1] ]}
           {[ 0%nat := [244; 1]; 1%nat := [1] ]}
           {| data := Ptr 0; sz := 2 |} {| data := Ptr 1; sz := 1 |} 3).
  - vm_compute. reflexivity.
  - vm_compute. reflexivity.
Defined.

(** ** Duplication *)

(** Index 65535 is outside every block a value can have. *)
Lemma dup_loop_past_end l (buf : list Z) (h : heap) new_sz (fuel : nat) :
  h !! l = Some buf -> Z.of_nat (length buf) < 65536 ->
  dup_loop (S fuel) (Ptr l) 65535 new_sz h = Trap (OutOfBounds l 65535).
Proof.
  intros Hl Hlen. simpl. unfold bind.
  now rewrite (load_past_end l buf) by (auto; lia).
Qed.

(** The loop of lines 34-37 entered inside a live block: it walks down to
    index 0, wraps to 65535 and reads there. *)
Lemma dup_loop_live l (buf : list Z) (h : heap) :
  h !! l = Some buf -> Z.of_nat (length buf) < 65536 ->
  forall (fuel : nat) (i new_sz : Z),
    0 <= i < Z.of_nat (length buf) -> i + 1 < Z.of_nat fuel ->
    dup_loop fuel (Ptr l) i new_sz h = Trap (OutOfBounds l 65535).
Proof.
  intros Hl Hlen.
  induction fuel as [|fuel IH]; intros i new_sz Hi Hfuel; [lia|].
  simpl. destruct (0 <=? i) eqn:E; [|lia].
  destruct (lookup_lt_is_Some_2 buf (Z.to_nat i)) as [x Hx]; [lia|].
  unfold bind. rewrite (load_live l buf i x) by (auto; lia).
  destruct (Z.eq_dec i 0) as [->|Hne].
  - change (wrap16 (0 - 1)) with 65535.
    destruct fuel as [|fuel]; [lia|]. now apply (dup_loop_past_end l buf).
  - rewrite wrap16_u16 by lia. apply IH; lia.
Qed.

(** The guard [i >= 0] holds for every [u16]: the loop is never left
    through it. *)
Lemma dup_loop_no_exit d : forall (fuel : nat) (i new_sz : Z) (h : heap),
  0 <= i -> returned (dup_loop fuel d i new_sz h) = false.
Proof.
  induction fuel as [|fuel IH]; intros i new_sz h Hi; [reflexivity|].
  simpl. destruct (0 <=? i) eqn:E; [|lia].
  unfold bind. destruct (load d i h) as [x h1| |]; try reflexivity.
  apply IH. pose proof (wrap16_range (i - 1)). lia.
Qed.

(** C5 (the code departs from it): [bigint_s_dup] returns no copy.  On
    every value of the heap the loop of lines 34-37 runs down the block,
    wraps its 16-bit counter from 0 to 65535 and reads there, outside the
    block (through the null pointer when the value is empty). *)
Theorem bigint_s_dup_reads_past_end (junk : nat -> Z) (fuel : nat)
  (v : bigint_s) (h : heap) :
  wf h v = true -> sz v + 1 < Z.of_nat fuel ->
  bigint_s_dup junk fuel v h =
  Trap (match data v with
        | NULL => NullDeref
        | Ptr l => OutOfBounds l 65535
        end).
Proof.
  intros Hw Hfuel. unfold bigint_s_dup, bind.
  destruct (Z.eq_dec (sz v) 0) as [E|E].
  - rewrite E. change (wrap16 (0 - 1)) with 65535.
    destruct fuel as [|fuel]; [lia|].
    unfold wf in Hw. apply andb_true_iff in Hw as [_ Hw].
    destruct (data v) as [|l]; [reflexivity|].
    destruct (h !! l) as [buf|] eqn:Hl; [|discriminate].
    apply andb_true_iff in Hw as [Hlen _].
    rewrite (dup_loop_past_end l buf) by (auto; lia). reflexivity.
  - destruct (wf_block _ _ Hw E) as (l & buf & Hd & Hl & Hlen & Hr & _).
    rewrite Hd, wrap16_u16 by lia.
    rewrite (dup_loop_live l buf) by (auto; lia). reflexivity.
Qed.

Lemma bigint_s_dup_reads_past_end_witness :
  bigint_s_dup (fun _ => 0) 3 {| data := Ptr 0; sz := 1 |} {[ 0%nat := [5] ]} =
  Trap (OutOfBounds 0 65535).
Proof.
  apply (bigint_s_dup_reads_past_end (fun _ => 0) 3
           {| data := Ptr 0; sz := 1 |} {[ 0%nat := [5] ]}).
  - reflexivity.
  - simpl. lia.
Defined.

(** ** Termination *)

(** C6 (the code departs from it): two loops have no exit.  The guard of
    the loop in [bigint_s_dup] holds for every 16-bit counter, so
    [bigint_s_dup] returns on no input, with no amount of fuel; and the
    scan of [bigint_s_cmp_gt] and [bigint_s_cmp_ge], entered with any 16-bit
    index, never falls through to the [return] of line 187. *)
Theorem dup_and_scan_loops_have_no_exit (junk : nat -> Z) (fuel : nat)
  (v a b : bigint_s) (a_neg i : Z) (h h' : heap) :
  returned (bigint_s_dup junk fuel v h) = false /\
  cmp_scan_loop fuel a b a_neg (wrap16 i) h <> Done None h'.
Proof.
  split.
  - unfold bigint_s_dup, bind.
    pose proof (dup_loop_no_exit (data v) fuel (wrap16 (sz v - 1)) (sz v) h)
      as H.
    destruct (dup_loop fuel (data v) (wrap16 (sz v - 1)) (sz v) h);
      try reflexivity.
    pose proof (wrap16_range (sz v - 1)). discriminate H. lia.
  - intros H. apply cmp_scan_loop_inv in H as [_ [H|[H|[_ H]]]];
      try discriminate.
    pose proof (wrap16_range i). lia.
Qed.

(** ** Zeroing and release *)

Lemma bigint_s_zero_live (v : bigint_s) (h : heap) :
  wf h v = true ->
  exists h',
    bigint_s_zero v h = Done v h' /\
    octets h' v = replicate (Z.to_nat (sz v)) 0 /\
    wf h' v = true /\
    (forall l : nat, data v <> Ptr l -> h' !! l = h !! l).
Proof.
  intros Hw. unfold bigint_s_zero.
  destruct (0 <? sz v) eqn:E.
  - apply Z.ltb_lt in E.
    destruct (wf_block h v Hw) as (l & buf & Hd & Hl & Hlen & Hr & _);
      [lia|].
    unfold bind, uni_memset. rewrite Hd. change 0 with (Z.of_nat 0) at 1.
    rewrite (store_from_live l _ 0 buf) by (auto; rewrite length_replicate; lia).
    eexists. split; [reflexivity|].
    rewrite drop_ge by (rewrite length_replicate; simpl; lia).
    simpl. rewrite app_nil_r.
    rewrite fmap_replicate. change (wrap8 0) with 0.
    unfold octets, wf, is_u16. rewrite Hd, lookup_insert_eq. simpl.
    split; [reflexivity|]. split.
    + rewrite length_replicate, forallb_octet_replicate. tests_hold.
    + intros l' Hne. apply lookup_insert_ne. congruence.
  - apply Z.ltb_ge in E. exists h. split; [reflexivity|].
    pose proof (wf_length _ _ Hw) as Hlen.
    assert (length (octets h v) = 0%nat) as H0 by lia.
    apply nil_length_inv in H0. rewrite H0.
    replace (Z.to_nat (sz v)) with 0%nat by lia. auto.
Qed.

(** X1: [bigint_s_zero] on a value of the heap returns the very struct it
    was given (same block, same size), with every octet of the block set to
    0; the value stays well formed and no other block is touched.  An empty
    value is returned as it is. *)
Theorem bigint_s_zero_in_place (v : bigint_s) (h : heap) :
  wf h v = true ->
  exists h',
    bigint_s_zero v h = Done v h' /\
    octets h' v = replicate (Z.to_nat (sz v)) 0 /\
    wf h' v = true /\
    (forall l : nat, data v <> Ptr l -> h' !! l = h !! l).
Proof. exact (bigint_s_zero_live v h). Qed.

Lemma bigint_s_zero_in_place_witness :
  let v := {| data := Ptr 0; sz := 2 |} in
  let h : heap := {[ 0%nat := [254; 255]; 1%nat := [7] ]} in
  exists h',
    bigint_s_zero v h = Done v h' /\
    octets h' v = replicate (Z.to_nat (sz v)) 0 /\
    wf h' v = true /\
    (forall l : nat, data v <> Ptr l -> h' !! l = h !! l).
Proof.
  apply (bigint_s_zero_in_place {| data := Ptr 0; sz := 2 |}
           {[ 0%nat := [254; 255]; 1%nat := [7] ]}).
  reflexivity.
Defined.

(** [bigint_s_fini] releases the block of a value, and does nothing for an
    empty one made by [bigint_s_init 0]. *)
Lemma bigint_s_fini_releases (v : bigint_s) (h : heap) :
  wf h v = true ->
  bigint_s_fini v h =
  Done tt (match data v with NULL => h | Ptr l => delete l h end).
Proof.
  intros Hw. unfold bigint_s_fini, wf in *.
  apply andb_true_iff in Hw as [_ Hw].
  destruct (data v) as [|l]; [reflexivity|].
  unfold uni_free. destruct (h !! l); [reflexivity|discriminate].
Qed.

(** ** Worked examples *)

(** Comparing -1 in two octets with -1 in one octet returns and leaves both
    operands positive: 32767 and 127. *)
Example cmp_gt_minus_1_minus_1 :
  with_operands (bigint_s_make16 (-1)) (bigint_s_make8 (-1))
                (bigint_s_cmp_gt 2) ∅ =
  Done (BIGINT_FALSE, {| data := Ptr 0; sz := 2 |}, {| data := Ptr 1; sz := 1 |})
       {[ 0%nat := [255; 127]; 1%nat := [127] ]}.
Proof. vm_compute. reflexivity. Qed.

(** 500 against 1: decided by the high octet of the longer operand. *)
Example cmp_gt_500_1 :
  with_operands (bigint_s_make16 500) (bigint_s_make8 1)
                (bigint_s_cmp_gt 2) ∅ =
  Done (BIGINT_TRUE, {| data := Ptr 0; sz := 2 |}, {| data := Ptr 1; sz := 1 |})
       {[ 0%nat := [244; 1]; 1%nat := [1] ]}.
Proof. vm_compute. reflexivity. Qed.

(** A negative against a non-negative: decided by the signs, nothing is
    written. *)
Example cmp_gt_minus_1_0 :
  with_operands (bigint_s_make8 (-1)) (bigint_s_make8 0)
                (bigint_s_cmp_gt 2) ∅ =
  Done (BIGINT_FALSE, {| data := Ptr 0; sz := 1 |}, {| data := Ptr 1; sz := 1 |})
       {[ 0%nat := [255]; 1%nat := [0] ]}.
Proof. vm_compute. reflexivity. Qed.

(** 5 against 1 with the 5 held in two octets: the high octet is zero and
    the scan reads index 1 of the one-octet operand. *)
Example cmp_gt_5_1 :
  with_operands (bigint_s_make16 5) (bigint_s_make8 1)
                (bigint_s_cmp_gt 3) ∅ = Trap (OutOfBounds 1 1).
Proof. vm_compute. reflexivity. Qed.

(** Equal operands under greater-or-equal. *)
Example cmp_ge_5_5 :
  with_operands (bigint_s_make8 5) (bigint_s_make8 5)
                (bigint_s_cmp_ge 2) ∅ = Trap (OutOfBounds 0 1).
Proof. vm_compute. reflexivity. Qed.

(** Equality of two equal two-octet values. *)
Example cmp_eq_5_5 :
  with_operands (bigint_s_make16 5) (bigint_s_make16 5)
                (bigint_s_cmp_eq 3) ∅ =
  Done (BIGINT_TRUE, {| data := Ptr 0; sz := 2 |}, {| data := Ptr 1; sz := 2 |})
       {[ 0%nat := [5; 0]; 1%nat := [5; 0] ]}.
Proof. vm_compute. reflexivity. Qed.

(** Duplicating the one-octet value 5. *)
Example dup_5 :
  (do v <- bigint_s_make8 5 ; bigint_s_dup (fun _ => 0) 3 v) ∅ =
  Trap (OutOfBounds 0 65535).
Proof. vm_compute. reflexivity. Qed.

(** * Further properties *)

(** ** Construction and release together *)

(** X2: a value made by [bigint_s_init] or by one of the four constructors
    and handed straight to [bigint_s_fini] leaves the heap exactly as it
    was before the construction: the block is released, nothing else is
    touched, and the empty value of [bigint_s_init 0] needs no release. *)
Theorem init_fini_restores_heap (n : Z) (t : prim) (m : Z) (h : heap) :
  (do v <- bigint_s_init n ; bigint_s_fini v) h = Done tt h /\
  (do v <- bigint_s_make t m ; bigint_s_fini v) h = Done tt h.
Proof.
  split.
  - unfold bind. destruct (Z_lt_le_dec 0 n) as [Hn|Hn].
    + rewrite bigint_s_init_alloc by lia.
      unfold bigint_s_fini, uni_free. simpl. rewrite lookup_insert_eq.
      now rewrite delete_insert_id by apply fresh_block_free.
    + unfold bigint_s_init. now rewrite (proj2 (Z.ltb_ge _ _) Hn).
  - pose proof (sizeof_pos t). unfold bind.
    rewrite bigint_s_make_sized, make_sized_alloc by lia.
    unfold bigint_s_fini, uni_free. simpl. rewrite lookup_insert_eq.
    now rewrite delete_insert_id by apply fresh_block_free.
Qed.

(** X13: two values made one after the other never share a block: the
    second constructor returns a block that was not live, the first value
    keeps its octets, and both are well formed in the final heap. *)
Theorem made_values_do_not_alias (t1 t2 : prim) (n1 n2 : Z)
  (h h1 h2 : heap) (a b : bigint_s) :
  bigint_s_make t1 n1 h = Done a h1 ->
  bigint_s_make t2 n2 h1 = Done b h2 ->
  data a <> data b /\
  octets h2 a = octets h1 a /\
  wf h2 a = true /\ wf h2 b = true.
Proof.
  pose proof (sizeof_pos t1). pose proof (sizeof_pos t2).
  rewrite !bigint_s_make_sized, !make_sized_alloc by lia.
  intros [= <- <-] [= <- <-]. simpl.
  set (l1 := fresh (dom h)).
  set (h1 := <[l1 := le_octet (sizeof t1) n1 <$> seq 0 (Z.to_nat (sizeof t1))]> h).
  assert (h1 !! l1 = Some (le_octet (sizeof t1) n1 <$> seq 0 (Z.to_nat (sizeof t1))))
    as Hl1 by apply lookup_insert_eq.
  pose proof (fresh_block_free h1) as Hf.
  split; [intros [= E]; congruence|].
  unfold octets, wf, is_u16. simpl.
  erewrite lookup_after_alloc by exact Hl1.
  rewrite Hl1, lookup_insert_eq. simpl.
  rewrite !length_fmap, !length_seq, !forallb_le_octets.
  repeat split; tests_hold.
Qed.

Lemma made_values_do_not_alias_witness :
  let a := {| data := Ptr 0; sz := 2 |} in
  let b := {| data := Ptr 1; sz := 1 |} in
  let h1 : heap := {[ 0%nat := [244; 1] ]} in
  let h2 : heap := {[ 0%nat := [244; 1]; 1%nat := [1] ]} in
  data a <> data b /\
  octets h2 a = octets h1 a /\
  wf h2 a = true /\ wf h2 b = true.
Proof.
  apply (made_values_do_not_alias s16 s8 500 1 ∅
           {[ 0%nat := [244; 1] ]} {[ 0%nat := [244; 1]; 1%nat := [1] ]}
           {| data := Ptr 0; sz := 2 |} {| data := Ptr 1; sz := 1 |}).
  - vm_compute. reflexivity.
  - vm_compute. reflexivity.
Defined.

(** ** Equality as a relation *)

(** [bigint_s_cmp_eq] on two values of the heap in closed form. *)
Lemma bigint_s_cmp_eq_outcome (fuel : nat) (a b : bigint_s) (h : heap) :
  wf h a = true -> wf h b = true -> sz a < Z.of_nat fuel ->
  bigint_s_cmp_eq fuel a b h =
  Done (if (sz a =? 0) || (sz b =? 0) then BIGINT_UNDEFINED
        else if negb (sz a =? sz b) then BIGINT_FALSE
        else if decide (octets h a = octets h b) then BIGINT_TRUE
        else BIGINT_FALSE) h.
Proof.
  intros Hwa Hwb Hfuel. unfold bigint_s_cmp_eq.
  destruct ((sz a =? 0) || (sz b =? 0)) eqn:E; [reflexivity|].
  apply orb_false_iff in E as [Ea Eb]. apply Z.eqb_neq in Ea, Eb.
  destruct (sz a =? sz b) eqn:Es; [|reflexivity]. apply Z.eqb_eq in Es.
  destruct (wf_block _ _ Hwa Ea) as (la & bufa & Ha & Hla & Hna & Hra & Hoa & _).
  destruct (wf_block _ _ Hwb Eb) as (lb & bufb & Hb & Hlb & Hnb & Hrb & Hob & _).
  simpl. unfold bind.
  rewrite (cmp_eq_loop_live a b la lb bufa bufb (sz a)) by (auto; lia).
  rewrite Hoa, Hob. change (Z.to_nat 0) with 0%nat. rewrite !drop_0.
  now case_decide.
Qed.

(** X4: on values of the heap [bigint_s_cmp_eq] is symmetric, and it is
    reflexive on every non-empty value (a value compared with itself, the
    two operands sharing one block, is equal to itself). *)
Theorem bigint_s_cmp_eq_symmetric (fuel : nat) (a b : bigint_s) (h : heap) :
  wf h a = true -> wf h b = true ->
  Z.max (sz a) (sz b) < Z.of_nat fuel ->
  bigint_s_cmp_eq fuel a b h = bigint_s_cmp_eq fuel b a h /\
  (sz a <> 0 -> bigint_s_cmp_eq fuel a a h = Done BIGINT_TRUE h).
Proof.
  intros Hwa Hwb Hfuel.
  rewrite !bigint_s_cmp_eq_outcome by (auto; lia). split.
  - rewrite (orb_comm (sz b =? 0)), (Z.eqb_sym (sz b) (sz a)).
    destruct ((sz a =? 0) || (sz b =? 0)); [reflexivity|].
    destruct (negb (sz a =? sz b)); [reflexivity|].
    repeat case_decide; congruence.
  - intros Ea. rewrite (proj2 (Z.eqb_neq _ _) Ea), Z.eqb_refl. simpl.
    now case_decide.
Qed.

Lemma bigint_s_cmp_eq_symmetric_witness :
  let a := {| data := Ptr 0; sz := 2 |} in
  let b := {| data := Ptr 1; sz := 2 |} in
  let h : heap := {[ 0%nat := [5; 0]; 1%nat := [5; 1] ]} in
  bigint_s_cmp_eq 3 a b h = bigint_s_cmp_eq 3 b a h /\
  (sz a <> 0 -> bigint_s_cmp_eq 3 a a h = Done BIGINT_TRUE h).
Proof.
  apply (bigint_s_cmp_eq_symmetric 3 {| data := Ptr 0; sz := 2 |}
           {| data := Ptr 1; sz := 2 |}
           {[ 0%nat := [5; 0]; 1%nat := [5; 1] ]}).
  - reflexivity.
  - reflexivity.
  - simpl. lia.
Defined.

(** ** Operands made from primitives: equality *)

(** Two constructors run one after the other: both values are well formed
    in the final heap, hold the little-endian octets of their primitives,
    and live in different blocks. *)
Lemma with_operands_made {A} (t1 t2 : prim) (n1 n2 : Z)
  (f : bigint_s -> bigint_s -> M A) (h : heap) :
  exists (a b : bigint_s) (h2 : heap),
    with_operands (bigint_s_make t1 n1) (bigint_s_make t2 n2) f h =
      (do r <- f a b ; ret (r, a, b)) h2 /\
    wf h2 a = true /\ wf h2 b = true /\
    sz a = sizeof t1 /\ sz b = sizeof t2 /\
    octets h2 a = (le_octet (sizeof t1) n1 <$> seq 0 (Z.to_nat (sizeof t1))) /\
    octets h2 b = (le_octet (sizeof t2) n2 <$> seq 0 (Z.to_nat (sizeof t2))) /\
    data a <> data b.
Proof.
  pose proof (sizeof_pos t1). pose proof (sizeof_pos t2).
  unfold with_operands.
  unfold bind at 1. rewrite bigint_s_make_sized, make_sized_alloc by lia.
  unfold bind at 1. rewrite bigint_s_make_sized, make_sized_alloc by lia.
  set (l1 := fresh (dom h)).
  set (h1 := <[l1 := le_octet (sizeof t1) n1 <$> seq 0 (Z.to_nat (sizeof t1))]> h).
  assert (h1 !! l1 = Some (le_octet (sizeof t1) n1 <$> seq 0 (Z.to_nat (sizeof t1))))
    as Hl1 by apply lookup_insert_eq.
  pose proof (fresh_block_free h1) as Hf.
  eexists _, _, _. split; [reflexivity|].
  unfold octets, wf, is_u16. simpl.
  erewrite lookup_after_alloc by exact Hl1.
  rewrite lookup_insert_eq. simpl.
  rewrite !length_fmap, !length_seq, !forallb_le_octets.
  repeat split; try tests_hold.
  intros [= E]. congruence.
Qed.

Lemma le_octet_testbit w n (i : nat) j :
  0 <= j < 8 -> Z.of_nat i < w ->
  Z.testbit (le_octet w n i) j = Z.testbit n (8 * Z.of_nat i + j).
Proof.
  intros Hj Hi. unfold le_octet. change 256 with (2 ^ 8).
  rewrite Z.mod_pow2_bits_low by lia.
  rewrite Z.div_pow2_bits by lia.
  rewrite Z.mod_pow2_bits_low by lia.
  f_equal. lia.
Qed.

(** The octets determine the primitive modulo [2^(8w)]. *)
Lemma le_octets_mod w n m :
  0 <= w ->
  (forall i : nat, Z.of_nat i < w -> le_octet w n i = le_octet w m i) ->
  n mod 2 ^ (8 * w) = m mod 2 ^ (8 * w).
Proof.
  intros Hw H. apply Z.bits_inj'. intros k Hk.
  destruct (Z_lt_le_dec k (8 * w)) as [Hlt|Hge].
  - rewrite !Z.mod_pow2_bits_low by lia.
    assert (k = 8 * Z.of_nat (Z.to_nat (k / 8)) + k mod 8) as E.
    { rewrite Z2Nat.id by (apply Z.div_pos; lia).
      apply Z.div_mod. lia. }
    assert (0 <= k mod 8 < 8) by (apply Z.mod_pos_bound; lia).
    assert (Z.of_nat (Z.to_nat (k / 8)) < w) as Hi.
    { rewrite Z2Nat.id by (apply Z.div_pos; lia).
      apply Z.div_lt_upper_bound; lia. }
    rewrite E, <- !(le_octet_testbit w) by assumption.
    now rewrite (H _ Hi).
  - now rewrite !Z.mod_pow2_bits_high by lia.
Qed.

Lemma le_octets_inj t n m :
  in_prim t n = true -> in_prim t m = true ->
  (le_octet (sizeof t) n <$> seq 0 (Z.to_nat (sizeof t))) =
  (le_octet (sizeof t) m <$> seq 0 (Z.to_nat (sizeof t))) ->
  n = m.
Proof.
  intros Hn Hm Heq. pose proof (sizeof_pos t) as Hw.
  assert (n mod 2 ^ (8 * sizeof t) = m mod 2 ^ (8 * sizeof t)) as E.
  { apply le_octets_mod; [lia|]. intros i Hi.
    assert ((le_octet (sizeof t) n <$> seq 0 (Z.to_nat (sizeof t))) !! i =
            (le_octet (sizeof t) m <$> seq 0 (Z.to_nat (sizeof t))) !! i) as Hi'
      by now rewrite Heq.
    rewrite !list_lookup_fmap, !lookup_seq_lt in Hi' by lia.
    now injection Hi'. }
  unfold in_prim in Hn, Hm.
  apply andb_true_iff in Hn as [Hn1 Hn2].
  apply andb_true_iff in Hm as [Hm1 Hm2].
  apply Z.leb_le in Hn1, Hm1. apply Z.ltb_lt in Hn2, Hm2.
  destruct t; cbn in Hn1, Hn2, Hm1, Hm2, E;
    revert E; Z.div_mod_to_equations; lia.
Qed.

(** X5: two values made from primitives of the same type compare equal
    exactly when the primitives are equal: the constructors are injective
    on the range of the type, as [bigint_s_cmp_eq] sees it. *)
Theorem cmp_eq_made_same_type (t : prim) (n m : Z) (fuel : nat) (h : heap) :
  in_prim t n = true -> in_prim t m = true ->
  sizeof t < Z.of_nat fuel ->
  exists (a b : bigint_s) (h2 : heap),
    with_operands (bigint_s_make t n) (bigint_s_make t m)
                  (bigint_s_cmp_eq fuel) h =
    Done (if n =? m then BIGINT_TRUE else BIGINT_FALSE, a, b) h2.
Proof.
  intros Hn Hm Hfuel.
  destruct (with_operands_made t t n m (bigint_s_cmp_eq fuel) h)
    as (a & b & h2 & -> & Hwa & Hwb & Hsa & Hsb & Hoa & Hob & _).
  exists a, b, h2. pose proof (sizeof_pos t).
  unfold bind. rewrite bigint_s_cmp_eq_outcome by (auto; lia).
  rewrite Hsa, Hsb, Z.eqb_refl, Hoa, Hob.
  rewrite (proj2 (Z.eqb_neq _ _)) by lia. simpl. unfold ret. do 3 f_equal.
  destruct (n =? m) eqn:E.
  - apply Z.eqb_eq in E. subst m. now case_decide.
  - apply Z.eqb_neq in E. case_decide as Hd; [|reflexivity].
    apply le_octets_inj in Hd; auto. contradiction.
Qed.

Lemma cmp_eq_made_same_type_witness :
  exists (a b : bigint_s) (h2 : heap),
    with_operands (bigint_s_make s16 (-2)) (bigint_s_make s16 254)
                  (bigint_s_cmp_eq 3) ∅ =
    Done (if -2 =? 254 then BIGINT_TRUE else BIGINT_FALSE, a, b) h2.
Proof.
  apply (cmp_eq_made_same_type s16 (-2) 254 3 ∅).
  - reflexivity.
  - reflexivity.
  - simpl. lia.
Defined.

(** X6: two values made from primitives of different widths never compare
    equal, whatever the two numbers are: [bigint_s_cmp_eq] compares
    representations, so 5 in one octet is not equal to 5 in two octets. *)
Theorem cmp_eq_made_different_width (t1 t2 : prim) (n m : Z) (fuel : nat)
  (h : heap) :
  sizeof t1 <> sizeof t2 ->
  exists (a b : bigint_s) (h2 : heap),
    with_operands (bigint_s_make t1 n) (bigint_s_make t2 m)
                  (bigint_s_cmp_eq fuel) h =
    Done (BIGINT_FALSE, a, b) h2.
Proof.
  intros Hne.
  destruct (with_operands_made t1 t2 n m (bigint_s_cmp_eq fuel) h)
    as (a & b & h2 & -> & _ & _ & Hsa & Hsb & _).
  exists a, b, h2.
  pose proof (sizeof_pos t1). pose proof (sizeof_pos t2).
  unfold bind, bigint_s_cmp_eq. rewrite Hsa, Hsb.
  rewrite !(proj2 (Z.eqb_neq _ _)) by lia. reflexivity.
Qed.

Lemma cmp_eq_made_different_width_witness :
  exists (a b : bigint_s) (h2 : heap),
    with_operands (bigint_s_make s16 5) (bigint_s_make s8 5)
                  (bigint_s_cmp_eq 0) ∅ =
    Done (BIGINT_FALSE, a, b) h2.
Proof.
  apply (cmp_eq_made_different_width s16 s8 5 5 0 ∅). simpl. lia.
Defined.

(** ** Ordering: the sign test decides *)

(** X7: when the operands are non-empty values of the heap with different
    signs, [bigint_s_cmp_gt] and [bigint_s_cmp_ge] answer from the signs
    alone, [BIGINT_TRUE] exactly when the second operand is the negative
    one, with any fuel and without writing to the heap. *)
Theorem bigint_s_cmp_signs_differ (fuel : nat) (a b : bigint_s) (h : heap) :
  wf h a = true -> wf h b = true -> sz a <> 0 -> sz b <> 0 ->
  negative h a <> negative h b ->
  bigint_s_cmp_gt fuel a b h =
    Done (if negative h b then BIGINT_TRUE else BIGINT_FALSE) h /\
  bigint_s_cmp_ge fuel a b h =
    Done (if negative h b then BIGINT_TRUE else BIGINT_FALSE) h.
Proof.
  intros Hwa Hwb Ea Eb Hn.
  unfold bigint_s_cmp_gt, bigint_s_cmp_ge, bigint_s_cmp_impl.
  rewrite (proj2 (Z.eqb_neq _ _) Ea), (proj2 (Z.eqb_neq _ _) Eb). simpl.
  unfold bind.
  rewrite (isnegative_live h a), (isnegative_live h b) by auto.
  destruct (negative h a), (negative h b); try contradiction; auto.
Qed.

Lemma bigint_s_cmp_signs_differ_witness :
  let a := {| data := Ptr 0; sz := 1 |} in
  let b := {| data := Ptr 1; sz := 1 |} in
  let h : heap := {[ 0%nat := [255]; 1%nat := [0] ]} in
  bigint_s_cmp_gt 0 a b h =
    Done (if negative h b then BIGINT_TRUE else BIGINT_FALSE) h /\
  bigint_s_cmp_ge 0 a b h =
    Done (if negative h b then BIGINT_TRUE else BIGINT_FALSE) h.
Proof.
  apply (bigint_s_cmp_signs_differ 0 {| data := Ptr 0; sz := 1 |}
           {| data := Ptr 1; sz := 1 |} {[ 0%nat := [255]; 1%nat := [0] ]}).
  - reflexivity.
  - reflexivity.
  - simpl. lia.
  - simpl. lia.
  - vm_compute. discriminate.
Defined.

(** ** Ordering: greater and greater-or-equal *)

(** X8: [bigint_s_cmp_ge] is [bigint_s_cmp_gt]: on every pair of operands,
    in every heap and with every fuel, the two calls have the same
    outcome.  The flag [orequ] is read on line 187 only, which the scan
    never reaches, so an exact match is never accepted. *)
Theorem bigint_s_cmp_ge_is_cmp_gt (fuel : nat) (a b : bigint_s) (h : heap) :
  bigint_s_cmp_ge fuel a b h = bigint_s_cmp_gt fuel a b h.
Proof.
  unfold bigint_s_cmp_ge, bigint_s_cmp_gt, bigint_s_cmp_impl.
  destruct ((sz a =? 0) || (sz b =? 0)); [reflexivity|].
  apply bind_ext. intros a_neg h1 Ea.
  apply bind_ext. intros b_neg h2 Eb.
  destruct (negb (a_neg =? b_neg)); [reflexivity|].
  apply bind_Done in Ea as (xa & ha & Hxa & _).
  apply bind_Done in Eb as (xb & hb & Hxb & _).
  apply load_inv in Hxa as (_ & _ & _ & _ & _ & Hia & _).
  apply load_inv in Hxb as (_ & _ & _ & _ & _ & Hib & _).
  apply bind_ext. intros x h3 _. apply bind_ext. intros [] h4 _.
  apply bind_ext. intros y h5 _. apply bind_ext. intros [] h6 _.
  apply bind_ext. intros [r|] h7 _; [reflexivity|].
  apply bind_ext. intros [r|] h8 Es; [reflexivity|].
  apply cmp_scan_loop_inv in Es as [_ [Hr|[Hr|[_ Hr]]]]; try discriminate.
  destruct (sz a <? sz b); lia.
Qed.

(** ** Ordering: what the caller's heap looks like afterwards *)

Lemma clear_sign_small buf x :
  buf !! Nat.pred (length buf) = Some x -> 0 <= x < 128 ->
  clear_sign buf = buf.
Proof.
  intros Hx Hr. unfold clear_sign. rewrite Hx. simpl.
  apply list_insert_id. rewrite Hx. f_equal.
  change 127 with (Z.ones 7). rewrite Z.land_ones by lia.
  symmetry. apply Z.mod_small. simpl. lia.
Qed.

(** Masking a value that is not negative changes nothing. *)
Lemma mask_sign_nonneg h v :
  wf h v = true -> negative h v = false -> mask_sign h v = h.
Proof.
  intros Hw Hn. unfold mask_sign.
  destruct (data v) as [|l] eqn:Hd; [reflexivity|].
  destruct (Z.eq_dec (sz v) 0) as [E|E].
  - pose proof (wf_length _ _ Hw) as Hlen.
    assert (length (octets h v) = 0%nat) as H0 by lia.
    apply nil_length_inv in H0. rewrite H0.
    unfold wf in Hw. rewrite Hd in Hw. apply andb_true_iff in Hw as [_ Hw].
    unfold octets in H0. rewrite Hd in H0.
    destruct (h !! l) as [buf|] eqn:Hl; [|discriminate].
    simpl in H0. subst buf. now apply insert_id.
  - destruct (wf_top h v Hw E)
      as (l' & buf & x & Hd' & Hl & Hlen & Hr & Ho & Hoct & Hx & Hxr).
    assert (l' = l) as -> by congruence.
    unfold negative in Hn. rewrite Ho, Hx in Hn. simpl in Hn.
    apply negb_false_iff, Z.eqb_eq in Hn.
    rewrite Z.shiftr_div_pow2 in Hn by lia. change (2 ^ 7) with 128 in Hn.
    assert (x < 128).
    { destruct (Z_lt_le_dec x 128) as [|Hge]; [assumption|].
      assert (1 <= x / 128) by (apply Z.div_le_lower_bound; lia). lia. }
    rewrite Ho, (clear_sign_small buf x).
    + now apply insert_id.
    + now replace (Nat.pred (length buf)) with (Z.to_nat (sz v - 1)) by lia.
    + lia.
Qed.

(** X9: [bigint_s_cmp_gt] and [bigint_s_cmp_ge] change the caller's heap
    only when both operands are negative: on values of the heap that are
    not both negative, a call that returns leaves every block as it was. *)
Theorem bigint_s_cmp_frame_unless_both_negative (fuel : nat)
  (a b : bigint_s) (h h' : heap) (r : bigint_cmp_retval) :
  wf h a = true -> wf h b = true ->
  negative h a && negative h b = false ->
  bigint_s_cmp_gt fuel a b h = Done r h' \/
  bigint_s_cmp_ge fuel a b h = Done r h' ->
  h' = h.
Proof.
  intros Hwa Hwb Hn H.
  assert (h' = if (sz a =? 0) || (sz b =? 0) ||
                  negb (eqb (negative h a) (negative h b))
               then h else mask_sign (mask_sign h a) b) as ->
    by (destruct H as [H|H];
        exact (bigint_s_cmp_impl_heap _ _ _ _ _ _ _ Hwa Hwb H)).
  destruct ((sz a =? 0) || (sz b =? 0)); [reflexivity|]. simpl.
  destruct (negative h a) eqn:Na, (negative h b) eqn:Nb;
    try discriminate; simpl; try reflexivity.
  rewrite (mask_sign_nonneg h a) by auto. now apply mask_sign_nonneg.
Qed.

Lemma bigint_s_cmp_frame_unless_both_negative_witness :
  let h : heap := {[ 0%nat := [244; 1]; 1%nat := [1] ]} in
  bigint_s_cmp_gt 2 {| data := Ptr 0; sz := 2 |}
                  {| data := Ptr 1; sz := 1 |} h = Done BIGINT_TRUE h /\
  h = h.
Proof.
  assert (bigint_s_cmp_gt 2 {| data := Ptr 0; sz := 2 |}
            {| data := Ptr 1; sz := 1 |}
            {[ 0%nat := [244; 1]; 1%nat := [1] ]} =
          Done BIGINT_TRUE {[ 0%nat := [244; 1]; 1%nat := [1] ]}) as E
    by (vm_compute; reflexivity).
  split; [exact E|].
  apply (bigint_s_cmp_frame_unless_both_negative 2
           {| data := Ptr 0; sz := 2 |} {| data := Ptr 1; sz := 1 |}
           {[ 0%nat := [244; 1]; 1%nat := [1] ]}
           {[ 0%nat := [244; 1]; 1%nat := [1] ]} BIGINT_TRUE);
    [reflexivity | reflexivity | reflexivity | left; exact E].
Defined.

(** X10: a returning [bigint_s_cmp_gt] or [bigint_s_cmp_ge] keeps every
    value of the heap well formed and writes nowhere but to the top octets
    of its two operands: blocks of other values are untouched, and every
    octet of an operand below its last one is what it was. *)
Theorem bigint_s_cmp_keeps_values (fuel : nat) (a b : bigint_s)
  (h h' : heap) (r : bigint_cmp_retval) :
  wf h a = true -> wf h b = true ->
  bigint_s_cmp_gt fuel a b h = Done r h' \/
  bigint_s_cmp_ge fuel a b h = Done r h' ->
  (forall u, wf h u = true -> wf h' u = true) /\
  (forall l : nat, data a <> Ptr l -> data b <> Ptr l -> h' !! l = h !! l) /\
  (forall i : nat,
      (S i < length (octets h a))%nat -> octets h' a !! i = octets h a !! i) /\
  (forall i : nat,
      (S i < length (octets h b))%nat -> octets h' b !! i = octets h b !! i).
Proof.
  intros Hwa Hwb H.
  assert (h' = if (sz a =? 0) || (sz b =? 0) ||
                  negb (eqb (negative h a) (negative h b))
               then h else mask_sign (mask_sign h a) b) as ->
    by (destruct H as [H|H];
        exact (bigint_s_cmp_impl_heap _ _ _ _ _ _ _ Hwa Hwb H)).
  destruct ((sz a =? 0) || (sz b =? 0)) eqn:E; [auto|].
  simpl. destruct (negb (eqb (negative h a) (negative h b))); [auto|].
  apply orb_false_iff in E as [Ea Eb]. apply Z.eqb_neq in Ea, Eb.
  destruct (octets_mask_both h a b Hwa Hwb Ea Eb) as [-> ->].
  repeat split.
  - intros u Hu. auto using wf_mask_sign.
  - intros l Ha Hb. unfold mask_sign.
    destruct (data b) as [|lb]; destruct (data a) as [|la];
      rewrite ?lookup_insert_ne by congruence; reflexivity.
  - intros i Hi. unfold clear_sign. apply list_lookup_insert_ne. lia.
  - intros i Hi. unfold clear_sign. apply list_lookup_insert_ne. lia.
Qed.

Lemma bigint_s_cmp_keeps_values_witness :
  let h : heap := {[ 0%nat := [255; 255]; 1%nat := [255]; 2%nat := [9] ]} in
  let h' : heap := {[ 0%nat := [255; 127]; 1%nat := [127]; 2%nat := [9] ]} in
  let a := {| data := Ptr 0; sz := 2 |} in
  let b := {| data := Ptr 1; sz := 1 |} in
  bigint_s_cmp_gt 2 a b h = Done BIGINT_FALSE h' /\
  (forall u, wf h u = true -> wf h' u = true) /\
  (forall l : nat, data a <> Ptr l -> data b <> Ptr l -> h' !! l = h !! l) /\
  (forall i : nat,
      (S i < length (octets h a))%nat -> octets h' a !! i = octets h a !! i) /\
  (forall i : nat,
      (S i < length (octets h b))%nat -> octets h' b !! i = octets h b !! i).
Proof.
  assert (bigint_s_cmp_gt 2 {| data := Ptr 0; sz := 2 |}
            {| data := Ptr 1; sz := 1 |}
            {[ 0%nat := [255; 255]; 1%nat := [255]; 2%nat := [9] ]} =
          Done BIGINT_FALSE
               {[ 0%nat := [255; 127]; 1%nat := [127]; 2%nat := [9] ]}) as E
    by (vm_compute; reflexivity).
  split; [exact E|].
  apply (bigint_s_cmp_keeps_values 2 {| data := Ptr 0; sz := 2 |}
           {| data := Ptr 1; sz := 1 |}
           {[ 0%nat := [255; 255]; 1%nat := [255]; 2%nat := [9] ]}
           {[ 0%nat := [255; 127]; 1%nat := [127]; 2%nat := [9] ]}
           BIGINT_FALSE);
    [reflexivity | reflexivity | left; exact E].
Defined.

(** ** Ordering: operands of different lengths *)

Lemma high_verdict_xorb a_big (neg : bool) :
  high_verdict a_big (if neg then 1 else 0) =
  if xorb a_big neg then BIGINT_TRUE else BIGINT_FALSE.
Proof. now destruct a_big, neg. Qed.

(** X11: operands of equal sign and different sizes, the longer one holding
    a non-zero octet above the length of the shorter one once the sign bits
    are cleared: [bigint_s_cmp_gt] and [bigint_s_cmp_ge] return, and the
    answer is read off the lengths and the sign alone: [BIGINT_TRUE] exactly
    when the first operand is the longer one and the sign is not negative,
    or it is the shorter one and the sign is negative.  No octet below the
    shorter length is looked at. *)
Theorem bigint_s_cmp_longer_operand_decides (fuel : nat) (a b : bigint_s)
  (h : heap) :
  wf h a = true -> wf h b = true -> sz a <> 0 -> sz b <> 0 ->
  Z.max (sz a) (sz b) <= Z.of_nat fuel ->
  negative h a = negative h b -> sz a <> sz b ->
  existsb nonzero
    (drop (Z.to_nat (Z.min (sz a) (sz b)))
          (octets (mask_sign (mask_sign h a) b)
                  (if sz b <? sz a then a else b))) = true ->
  bigint_s_cmp_gt fuel a b h =
    Done (if xorb (sz b <? sz a) (negative h a)
          then BIGINT_TRUE else BIGINT_FALSE)
         (mask_sign (mask_sign h a) b) /\
  bigint_s_cmp_ge fuel a b h =
    Done (if xorb (sz b <? sz a) (negative h a)
          then BIGINT_TRUE else BIGINT_FALSE)
         (mask_sign (mask_sign h a) b).
Proof.
  intros Hwa Hwb Ea Eb Hfuel Hn Es Hex.
  unfold bigint_s_cmp_gt, bigint_s_cmp_ge.
  rewrite !bigint_s_cmp_impl_outcome by auto.
  unfold cmp_impl_outcome.
  rewrite (proj2 (Z.eqb_neq _ _) Ea), (proj2 (Z.eqb_neq _ _) Eb).
  rewrite (proj2 (Z.eqb_neq _ _) Es), Hex, <- Hn, eqb_reflx. simpl.
  now rewrite high_verdict_xorb.
Qed.

Lemma bigint_s_cmp_longer_operand_decides_witness :
  let h : heap := {[ 0%nat := [244; 1]; 1%nat := [1] ]} in
  let a := {| data := Ptr 0; sz := 2 |} in
  let b := {| data := Ptr 1; sz := 1 |} in
  bigint_s_cmp_gt 2 a b h =
    Done (if xorb (sz b <? sz a) (negative h a)
          then BIGINT_TRUE else BIGINT_FALSE)
         (mask_sign (mask_sign h a) b) /\
  bigint_s_cmp_ge 2 a b h =
    Done (if xorb (sz b <? sz a) (negative h a)
          then BIGINT_TRUE else BIGINT_FALSE)
         (mask_sign (mask_sign h a) b).
Proof.
  apply (bigint_s_cmp_longer_operand_decides 2
           {| data := Ptr 0; sz := 2 |} {| data := Ptr 1; sz := 1 |}
           {[ 0%nat := [244; 1]; 1%nat := [1] ]}).
  - reflexivity.
  - reflexivity.
  - simpl. lia.
  - simpl. lia.
  - simpl. lia.
  - reflexivity.
  - simpl. lia.
  - vm_compute. reflexivity.
Defined.

(** ** Ordering: the same comparison twice *)

Lemma negative_after_mask h a b :
  wf h a = true -> wf h b = true -> sz a <> 0 -> sz b <> 0 ->
  negative (mask_sign (mask_sign h a) b) a = false /\
  negative (mask_sign (mask_sign h a) b) b = false.
Proof.
  intros Hwa Hwb Ea Eb.
  destruct (octets_mask_both h a b Hwa Hwb Ea Eb) as [Ha Hb].
  assert (forall v, wf h v = true -> sz v <> 0 ->
            Z.shiftr (default 0 (clear_sign (octets h v)
                                   !! Z.to_nat (sz v - 1))) 7 = 0) as Hc.
  { intros v Hw E.
    destruct (wf_top h v Hw E)
      as (l & buf & x & Hd & Hl & Hlen & Hr & Ho & Hoct & Hx & Hxr).
    rewrite Ho. unfold clear_sign.
    replace (Nat.pred (length buf)) with (Z.to_nat (sz v - 1)) by lia.
    rewrite Hx, list_lookup_insert_eq by lia. simpl.
    pose proof (land_7F_range x).
    rewrite Z.shiftr_div_pow2 by lia. apply Z.div_small. simpl. lia. }
  unfold negative. rewrite Ha, Hb, !Hc by auto. auto.
Qed.

(** X12: comparing the same two negative operands twice gives opposite
    answers.  When [bigint_s_cmp_gt] returns on two negative values of the
    heap, the call has cleared both sign bits, and the same call on the
    heap it left behind returns the other answer (and changes nothing
    more). *)
Theorem bigint_s_cmp_gt_twice_flips (fuel : nat) (a b : bigint_s)
  (h h' : heap) (r : bigint_cmp_retval) :
  wf h a = true -> wf h b = true ->
  negative h a = true -> negative h b = true ->
  Z.max (sz a) (sz b) <= Z.of_nat fuel ->
  bigint_s_cmp_gt fuel a b h = Done r h' ->
  bigint_s_cmp_gt fuel a b h' = Done (opposite r) h'.
Proof.
  intros Hwa Hwb Na Nb Hfuel.
  destruct (negative_top _ _ Hwa Na) as (Ea & _).
  destruct (negative_top _ _ Hwb Nb) as (Eb & _).
  unfold bigint_s_cmp_gt.
  rewrite bigint_s_cmp_impl_outcome by auto.
  unfold cmp_impl_outcome at 1.
  rewrite (proj2 (Z.eqb_neq _ _) Ea), (proj2 (Z.eqb_neq _ _) Eb), Na, Nb.
  simpl.
  set (h2 := mask_sign (mask_sign h a) b).
  destruct (negb (sz a =? sz b) && _) eqn:Hc; [|discriminate].
  intros [= <- <-].
  assert (wf h2 a = true) as Hwa2 by (unfold h2; auto using wf_mask_sign).
  assert (wf h2 b = true) as Hwb2 by (unfold h2; auto using wf_mask_sign).
  destruct (negative_after_mask h a b Hwa Hwb Ea Eb) as [Na2 Nb2].
  fold h2 in Na2, Nb2.
  rewrite bigint_s_cmp_impl_outcome by auto.
  unfold cmp_impl_outcome.
  rewrite (proj2 (Z.eqb_neq _ _) Ea), (proj2 (Z.eqb_neq _ _) Eb), Na2, Nb2.
  simpl.
  rewrite (mask_sign_nonneg h2 a) by auto.
  rewrite (mask_sign_nonneg h2 b) by auto.
  rewrite Hc. now destruct (sz b <? sz a).
Qed.

Lemma bigint_s_cmp_gt_twice_flips_witness :
  let h : heap := {[ 0%nat := [255; 255]; 1%nat := [255] ]} in
  let h' : heap := {[ 0%nat := [255; 127]; 1%nat := [127] ]} in
  let a := {| data := Ptr 0; sz := 2 |} in
  let b := {| data := Ptr 1; sz := 1 |} in
  bigint_s_cmp_gt 2 a b h = Done BIGINT_FALSE h' /\
  bigint_s_cmp_gt 2 a b h' = Done (opposite BIGINT_FALSE) h'.
Proof.
  assert (bigint_s_cmp_gt 2 {| data := Ptr 0; sz := 2 |}
            {| data := Ptr 1; sz := 1 |}
            {[ 0%nat := [255; 255]; 1%nat := [255] ]} =
          Done BIGINT_FALSE {[ 0%nat := [255; 127]; 1%nat := [127] ]}) as E
    by (vm_compute; reflexivity).
  split; [exact E|].
  apply (bigint_s_cmp_gt_twice_flips 2 {| data := Ptr 0; sz := 2 |}
           {| data := Ptr 1; sz := 1 |}
           {[ 0%nat := [255; 255]; 1%nat := [255] ]}
           {[ 0%nat := [255; 127]; 1%nat := [127] ]} BIGINT_FALSE);
    [reflexivity | reflexivity | reflexivity | reflexivity
    | simpl; lia | exact E].
Defined.

(** ** Operands made from primitives: ordering *)

(** The sign bit of a value holding the octets of a primitive is the sign
    of the primitive. *)
Lemma negative_made t n h v :
  in_prim t n = true -> sz v = sizeof t ->
  octets h v = (le_octet (sizeof t) n <$> seq 0 (Z.to_nat (sizeof t))) ->
  negative h v = (n <? 0).
Proof.
  intros Hn Hs Ho. pose proof (sizeof_pos t) as Hw.
  unfold negative. rewrite Ho, Hs.
  rewrite list_lookup_fmap, lookup_seq_lt by lia. simpl.
  rewrite Z.shiftr_div_pow2 by lia.
  unfold in_prim in Hn. apply andb_true_iff in Hn as [Hn1 Hn2].
  apply Z.leb_le in Hn1. apply Z.ltb_lt in Hn2.
  unfold le_octet.
  destruct (n <? 0) eqn:E; [apply Z.ltb_lt in E|apply Z.ltb_ge in E].
  - apply negb_true_iff, Z.eqb_neq. clear Hs Ho Hw.
    destruct t; cbn [sizeof] in *; eval_pows; Z.div_mod_to_equations; lia.
  - apply negb_false_iff, Z.eqb_eq. clear Hs Ho Hw.
    destruct t; cbn [sizeof] in *; eval_pows; Z.div_mod_to_equations; lia.
Qed.

(** X14: for primitives of opposite signs, of any two types,
    [bigint_s_cmp_gt] on the two made values returns the arithmetically
    right answer, [BIGINT_TRUE] exactly when the first primitive is the
    greater one, with any fuel. *)
Theorem cmp_gt_made_opposite_signs (t1 t2 : prim) (n m : Z) (fuel : nat)
  (h : heap) :
  in_prim t1 n = true -> in_prim t2 m = true ->
  (n <? 0) <> (m <? 0) ->
  exists (a b : bigint_s) (h2 : heap),
    with_operands (bigint_s_make t1 n) (bigint_s_make t2 m)
                  (bigint_s_cmp_gt fuel) h =
    Done (if m <? n then BIGINT_TRUE else BIGINT_FALSE, a, b) h2.
Proof.
  intros Hn Hm Hs.
  destruct (with_operands_made t1 t2 n m (bigint_s_cmp_gt fuel) h)
    as (a & b & h2 & -> & Hwa & Hwb & Hsa & Hsb & Hoa & Hob & _).
  exists a, b, h2.
  pose proof (sizeof_pos t1). pose proof (sizeof_pos t2).
  pose proof (negative_made t1 n h2 a Hn Hsa Hoa) as Na.
  pose proof (negative_made t2 m h2 b Hm Hsb Hob) as Nb.
  unfold bind at 1. unfold bigint_s_cmp_gt, bigint_s_cmp_impl.
  rewrite !(proj2 (Z.eqb_neq _ _)) by lia. simpl.
  unfold bind at 1. rewrite (isnegative_live h2 a) by (auto; lia).
  unfold bind at 1. rewrite (isnegative_live h2 b) by (auto; lia).
  rewrite Na, Nb. unfold ret.
  destruct (n <? 0) eqn:En, (m <? 0) eqn:Em; try contradiction; simpl.
  - apply Z.ltb_lt in En. apply Z.ltb_ge in Em.
    now rewrite (proj2 (Z.ltb_ge m n)) by lia.
  - apply Z.ltb_ge in En. apply Z.ltb_lt in Em.
    now rewrite (proj2 (Z.ltb_lt m n)) by lia.
Qed.

Lemma cmp_gt_made_opposite_signs_witness :
  exists (a b : bigint_s) (h2 : heap),
    with_operands (bigint_s_make s8 (-1)) (bigint_s_make s32 0)
                  (bigint_s_cmp_gt 0) ∅ =
    Done (if 0 <? -1 then BIGINT_TRUE else BIGINT_FALSE, a, b) h2.
Proof.
  apply (cmp_gt_made_opposite_signs s8 s32 (-1) 0 0 ∅).
  - reflexivity.
  - reflexivity.
  - vm_compute. discriminate.
Defined.

(** A number that does not fit [w2] octets has a non-zero octet at or
    above index [w2]. *)
Lemma high_octets_nonzero w1 w2 n :
  0 < w2 < w1 -> 0 <= n < 2 ^ (8 * w1) -> 2 ^ (8 * w2) <= n ->
  existsb nonzero
    (drop (Z.to_nat w2) (le_octet w1 n <$> seq 0 (Z.to_nat w1))) = true.
Proof.
  intros Hw Hn Hbig.
  destruct (existsb _ _) eqn:E; [reflexivity|]. exfalso.
  assert (forall i : nat, w2 <= Z.of_nat i < w1 -> le_octet w1 n i = 0) as Hz.
  { intros i Hi.
    destruct (Z.eq_dec (le_octet w1 n i) 0) as [|Hne]; [assumption|].
    assert (existsb nonzero
              (drop (Z.to_nat w2) (le_octet w1 n <$> seq 0 (Z.to_nat w1)))
            = true) as Ht; [|congruence].
    apply existsb_exists. exists (le_octet w1 n i). split.
    - apply list_elem_of_In, list_elem_of_lookup.
      exists (i - Z.to_nat w2)%nat.
      rewrite lookup_drop, list_lookup_fmap, lookup_seq_lt by lia.
      simpl. do 2 f_equal. lia.
    - unfold nonzero. now rewrite (proj2 (Z.eqb_neq _ _) Hne). }
  assert (n = n mod 2 ^ (8 * w2)) as Hmod.
  { apply Z.bits_inj'. intros k Hk.
    destruct (Z_lt_le_dec k (8 * w2)) as [Hlt|Hge].
    - now rewrite Z.mod_pow2_bits_low by lia.
    - rewrite Z.mod_pow2_bits_high by lia.
      destruct (Z_lt_le_dec k (8 * w1)) as [Hlt1|Hge1].
      + assert (k = 8 * Z.of_nat (Z.to_nat (k / 8)) + k mod 8) as Ek.
        { rewrite Z2Nat.id by (apply Z.div_pos; lia).
          apply Z.div_mod. lia. }
        assert (0 <= k mod 8 < 8) by (apply Z.mod_pos_bound; lia).
        assert (w2 <= Z.of_nat (Z.to_nat (k / 8)) < w1) as Hi.
        { rewrite Z2Nat.id by (apply Z.div_pos; lia). split.
          - apply Z.div_le_lower_bound; lia.
          - apply Z.div_lt_upper_bound; lia. }
        rewrite Ek, <- (le_octet_testbit w1) by lia.
        rewrite (Hz _ Hi). apply Z.bits_0.
      + rewrite <- (Z.mod_small n (2 ^ (8 * w1))) by lia.
        now rewrite Z.mod_pow2_bits_high by lia. }
  assert (0 <= n mod 2 ^ (8 * w2) < 2 ^ (8 * w2))
    by (apply Z.mod_pos_bound; lia).
  lia.
Qed.

Lemma in_prim_nonneg_range t n :
  in_prim t n = true -> 0 <= n -> 0 <= n < 2 ^ (8 * sizeof t).
Proof.
  unfold in_prim. intros H Hn. apply andb_true_iff in H as [_ H].
  apply Z.ltb_lt in H. split; [assumption|].
  destruct t; cbn [sizeof] in *; eval_pows; lia.
Qed.

(** X15: a non-negative primitive too large for the narrower type against
    any non-negative primitive of that narrower type: [bigint_s_cmp_gt] on
    the made values returns the arithmetically right answer in both
    directions, [BIGINT_TRUE] with the wide value first and [BIGINT_FALSE]
    with it second. *)
Theorem cmp_gt_made_wider_nonneg (t1 t2 : prim) (n m : Z) (fuel : nat)
  (h : heap) :
  in_prim t1 n = true -> in_prim t2 m = true ->
  sizeof t2 < sizeof t1 -> 0 <= m -> 2 ^ (8 * sizeof t2) <= n ->
  sizeof t1 <= Z.of_nat fuel ->
  (exists (a b : bigint_s) (h2 : heap),
      with_operands (bigint_s_make t1 n) (bigint_s_make t2 m)
                    (bigint_s_cmp_gt fuel) h =
      Done (BIGINT_TRUE, a, b) h2) /\
  (exists (a b : bigint_s) (h2 : heap),
      with_operands (bigint_s_make t2 m) (bigint_s_make t1 n)
                    (bigint_s_cmp_gt fuel) h =
      Done (BIGINT_FALSE, a, b) h2).
Proof.
  intros Hn Hm Hw Hm0 Hbig Hfuel.
  pose proof (sizeof_pos t1). pose proof (sizeof_pos t2).
  assert (0 <= n) as Hn0 by (pose proof (Z.pow_pos_nonneg 2 (8 * sizeof t2)); lia).
  pose proof (in_prim_nonneg_range t1 n Hn Hn0) as Hr.
  pose proof (high_octets_nonzero (sizeof t1) (sizeof t2) n
                ltac:(lia) Hr Hbig) as Hex.
  split.
  - destruct (with_operands_made t1 t2 n m (bigint_s_cmp_gt fuel) h)
      as (a & b & h2 & -> & Hwa & Hwb & Hsa & Hsb & Hoa & Hob & _).
    exists a, b, h2.
    pose proof (negative_made t1 n h2 a Hn Hsa Hoa) as Na.
    pose proof (negative_made t2 m h2 b Hm Hsb Hob) as Nb.
    rewrite (proj2 (Z.ltb_ge n 0)) in Na by lia.
    rewrite (proj2 (Z.ltb_ge m 0)) in Nb by lia.
    unfold bind, bigint_s_cmp_gt.
    rewrite bigint_s_cmp_impl_outcome by (auto; lia).
    unfold cmp_impl_outcome. rewrite Na, Nb, Hsa, Hsb.
    rewrite (mask_sign_nonneg h2 a), (mask_sign_nonneg h2 b) by auto.
    rewrite !(proj2 (Z.eqb_neq _ _)) by lia.
    rewrite (proj2 (Z.ltb_lt _ _)) by lia.
    rewrite Z.min_r by lia. rewrite Hoa, Hex. reflexivity.
  - destruct (with_operands_made t2 t1 m n (bigint_s_cmp_gt fuel) h)
      as (a & b & h2 & -> & Hwa & Hwb & Hsa & Hsb & Hoa & Hob & _).
    exists a, b, h2.
    pose proof (negative_made t2 m h2 a Hm Hsa Hoa) as Na.
    pose proof (negative_made t1 n h2 b Hn Hsb Hob) as Nb.
    rewrite (proj2 (Z.ltb_ge m 0)) in Na by lia.
    rewrite (proj2 (Z.ltb_ge n 0)) in Nb by lia.
    unfold bind, bigint_s_cmp_gt.
    rewrite bigint_s_cmp_impl_outcome by (auto; lia).
    unfold cmp_impl_outcome. rewrite Na, Nb, Hsa, Hsb.
    rewrite (mask_sign_nonneg h2 a), (mask_sign_nonneg h2 b) by auto.
    rewrite !(proj2 (Z.eqb_neq _ _)) by lia.
    rewrite (proj2 (Z.ltb_ge _ _)) by lia.
    rewrite Z.min_l by lia. rewrite Hob, Hex. reflexivity.
Qed.

Lemma cmp_gt_made_wider_nonneg_witness :
  (exists (a b : bigint_s) (h2 : heap),
      with_operands (bigint_s_make s16 500) (bigint_s_make s8 1)
                    (bigint_s_cmp_gt 2) ∅ =
      Done (BIGINT_TRUE, a, b) h2) /\
  (exists (a b : bigint_s) (h2 : heap),
      with_operands (bigint_s_make s8 1) (bigint_s_make s16 500)
                    (bigint_s_cmp_gt 2) ∅ =
      Done (BIGINT_FALSE, a, b) h2).
Proof.
  apply (cmp_gt_made_wider_nonneg s16 s8 500 1 2 ∅).
  - reflexivity.
  - reflexivity.
  - simpl. lia.
  - lia.
  - simpl. lia.
  - simpl. lia.
Defined.

(** ** Operations together *)

(** X16: a zeroed value is equal to a new zero-filled value of the same
    size: [bigint_s_zero] followed by [bigint_s_init] of the size and
    [bigint_s_cmp_eq] on the two returns [BIGINT_TRUE], for every non-empty
    value of the heap. *)
Theorem zero_equals_init (fuel : nat) (v : bigint_s) (h : heap) :
  wf h v = true -> sz v <> 0 -> sz v < Z.of_nat fuel ->
  exists h',
    (do z <- bigint_s_zero v ;
     do i <- bigint_s_init (sz z) ;
     bigint_s_cmp_eq fuel z i) h = Done BIGINT_TRUE h'.
Proof.
  intros Hw E Hfuel.
  destruct (bigint_s_zero_live v h Hw) as (h1 & Hz & Ho & Hw1 & _).
  destruct (wf_block _ _ Hw1 E) as (l & buf & Hd & Hl & Hlen & Hr & Hob & _).
  unfold bind at 1. rewrite Hz.
  unfold bind at 1. rewrite bigint_s_init_alloc by lia.
  set (l2 := fresh (dom h1)).
  set (i := {| data := Ptr l2; sz := sz v |}).
  set (h2 := <[l2 := replicate (Z.to_nat (sz v)) 0]> h1).
  assert (h2 !! l = Some buf) as Hl2
    by (unfold h2, l2; apply lookup_after_alloc; exact Hl).
  assert (h2 !! l2 = Some (replicate (Z.to_nat (sz v)) 0)) as Hi
    by apply lookup_insert_eq.
  assert (wf h2 v = true) as Hwv.
  { unfold wf in Hw1 |- *. rewrite Hd, Hl in Hw1. now rewrite Hd, Hl2. }
  assert (wf h2 i = true) as Hwi.
  { unfold wf, is_u16. simpl. rewrite Hi.
    rewrite length_replicate, forallb_octet_replicate. tests_hold. }
  exists h2. rewrite bigint_s_cmp_eq_outcome by auto.
  unfold i at 1 2. simpl.
  rewrite (proj2 (Z.eqb_neq _ _) E), Z.eqb_refl. simpl.
  assert (octets h2 v = octets h2 i) as ->; [|now case_decide].
  unfold octets. simpl. rewrite Hd, Hl2, Hi. simpl.
  unfold octets in Ho. rewrite Hd, Hl in Ho. exact Ho.
Qed.

Lemma zero_equals_init_witness :
  exists h',
    (do z <- bigint_s_zero {| data := Ptr 0; sz := 2 |} ;
     do i <- bigint_s_init (sz z) ;
     bigint_s_cmp_eq 3 z i) {[ 0%nat := [254; 255] ]} = Done BIGINT_TRUE h'.
Proof.
  apply (zero_equals_init 3 {| data := Ptr 0; sz := 2 |}
           {[ 0%nat := [254; 255] ]}).
  - reflexivity.
  - simpl. lia.
  - simpl. lia.
Defined.


